(** * SysCall Secure: the kernel of [script.js], embedded and verified

  The development follows the three classes of the source that carry the
  simulated kernel: [AuditLogger], [VirtualFileSystem] and [Kernel].  The
  [UIController] only calls [Kernel.login], [Kernel.logout],
  [Kernel.syscall] and [AuditLogger.clearLogs]; it is represented by the
  operations of [Module Lifetime].

  Conventions of the embedding.
  - A JavaScript string is a [string]; every string primitive the source
    uses ([split], [filter], [join], [includes], [startsWith], [length],
    [parseInt], [===]) works code unit by code unit, and so do the
    definitions of [Module JS].
  - A value that may be [undefined] or [null] where the source expects a
    string (a missing element of [args], the result of [getParentPath]) is
    a [jsval].
  - Code that throws returns a [result]; the exception object is a
    [JsError] carrying the [message] the dispatcher inspects.
  - Objects mutated in place (the file tree, the log array, the process
    array) are threaded through as explicit state.  The file tree has no
    sharing: every node object is held by exactly one [children] object, so
    the in-place assignment at the node that [resolvePath] returns is the
    functional update along the same segments.
  - Numbers ([nextPid], pids, the result of [parseInt]) are integers of
    [Z]; JavaScript computes on them exactly below 2^53.
  - [Date.now()] and [new Date()] are readings of a [Clock] handed to the
    operation; [localStorage] is outside the model ([saveLogs] swallows its
    failures and the kernel never reads it back after construction). *)

From Stdlib Require Import String Ascii List ZArith Lia Bool Arith Sorted.
Import ListNotations.
Open Scope string_scope.
Open Scope list_scope.

(** ** JavaScript values and primitives *)

Module JS.

Inductive jsval : Type :=
| JUndefined
| JNull
| JStr (s : string).

(** [ToString], as applied to property keys and to the argument of
    [parseInt]. *)
Definition to_string (v : jsval) : string :=
  match v with
  | JUndefined => "undefined"
  | JNull => "null"
  | JStr s => s
  end.

(** The exception objects of the program: [new Error(msg)] thrown by the
    source, and the [TypeError] the engine raises on a member access of
    [undefined] or [null]. *)
Inductive JsError : Type :=
| Error (msg : string)
| TypeError (msg : string).

Definition message (e : JsError) : string :=
  match e with
  | Error m => m
  | TypeError m => m
  end.

(** Message of the [TypeError] raised by [v.prop] for [v] undefined or null
    (the wording of V8). *)
Definition cannot_read (v : jsval) (prop : string) : JsError :=
  TypeError ("Cannot read properties of " ++ to_string v
             ++ " (reading '" ++ prop ++ "')").

Inductive result (A : Type) : Type :=
| Ok (a : A)
| Throw (e : JsError).
Arguments Ok {A} a.
Arguments Throw {A} e.

Definition bind {A B} (r : result A) (f : A -> result B) : result B :=
  match r with
  | Ok a => f a
  | Throw e => Throw e
  end.

(** [v.prop] for a string-valued receiver: the member access itself. *)
Definition receiver (v : jsval) (prop : string) : result string :=
  match v with
  | JStr s => Ok s
  | _ => Throw (cannot_read v prop)
  end.

(** [s.split(sep)] for a one-character separator. *)
Fixpoint split (sep : ascii) (s : string) : list string :=
  match s with
  | EmptyString => [EmptyString]
  | String c s' =>
      if Ascii.eqb c sep then EmptyString :: split sep s'
      else match split sep s' with
           | [] => [String c EmptyString]
           | w :: ws => String c w :: ws
           end
  end.

(** [l.join(sep)]. *)
Definition join (sep : string) (l : list string) : string :=
  String.concat sep l.

(** [s.startsWith(p)]. *)
Definition startsWith (s p : string) : bool := String.prefix p s.

(** [s.includes(needle)]. *)
Fixpoint includes (s needle : string) : bool :=
  String.prefix needle s
  || match s with
     | EmptyString => false
     | String _ s' => includes s' needle
     end.

(** *** [parseInt(string)] with no radix argument *)

Definition is_white_space (c : ascii) : bool :=
  let n := nat_of_ascii c in
  ((n =? 9) || (n =? 10) || (n =? 11) || (n =? 12) || (n =? 13)
   || (n =? 32) || (n =? 160))%nat.

Fixpoint trim_start (s : string) : string :=
  match s with
  | EmptyString => EmptyString
  | String c s' => if is_white_space c then trim_start s' else s
  end.

(** Value of a character as a digit of a radix up to 36. *)
Definition digit_value (c : ascii) : option Z :=
  let n := nat_of_ascii c in
  if ((48 <=? n) && (n <=? 57))%nat then Some (Z.of_nat (n - 48))
  else if ((97 <=? n) && (n <=? 122))%nat then Some (Z.of_nat (n - 87))
  else if ((65 <=? n) && (n <=? 90))%nat then Some (Z.of_nat (n - 55))
  else None.

(** The longest prefix of radix-[radix] digits, as a number; [acc] is the
    value read so far, [None] while no digit has been read. *)
Fixpoint parse_digits (radix : Z) (s : string) (acc : option Z) : option Z :=
  match s with
  | EmptyString => acc
  | String c s' =>
      match digit_value c with
      | Some d =>
          if (d <? radix)%Z
          then parse_digits radix s'
                 (Some (radix * match acc with Some a => a | None => 0 end
                        + d)%Z)
          else acc
      | None => acc
      end
  end.

(** [parseInt(s)]; [None] is [NaN]. *)
Definition parseInt (s : string) : option Z :=
  let s1 := trim_start s in
  let '(sign, s2) :=
    match s1 with
    | String "-" r => ((-1)%Z, r)
    | String "+" r => (1%Z, r)
    | _ => (1%Z, s1)
    end in
  let '(radix, s3) :=
    match s2 with
    | String "0" (String "x" r) => (16%Z, r)
    | String "0" (String "X" r) => (16%Z, r)
    | _ => (10%Z, s2)
    end in
  option_map (Z.mul sign) (parse_digits radix s3 None).

(** [v === s] for a string literal [s]. *)
Definition strict_eq (v : jsval) (s : string) : bool :=
  match v with
  | JStr s' => String.eqb s' s
  | _ => false
  end.

(** [n === parseInt(..)] on numbers: [NaN] equals nothing. *)
Definition num_eq (n : Z) (m : option Z) : bool :=
  match m with
  | Some z => Z.eqb n z
  | None => false
  end.

(** *** Property keys of plain objects *)

(** The members every object literal inherits from [Object.prototype]; each
    is a function or an object, hence truthy. *)
Definition object_prototype_keys : list string :=
  [ "constructor"; "__defineGetter__"; "__defineSetter__"; "hasOwnProperty";
    "__lookupGetter__"; "__lookupSetter__"; "isPrototypeOf";
    "propertyIsEnumerable"; "toString"; "valueOf"; "__proto__";
    "toLocaleString" ].

Definition inherited_key (k : string) : bool :=
  existsb (String.eqb k) object_prototype_keys.

(** A key is an array index when it is the canonical decimal numeral of an
    integer below 2^32 - 1; [Object.keys] lists those first, in numeric
    order. *)
Definition is_digit (c : ascii) : bool :=
  let n := nat_of_ascii c in ((48 <=? n) && (n <=? 57))%nat.

Fixpoint all_digits (s : string) : bool :=
  match s with
  | EmptyString => true
  | String c s' => is_digit c && all_digits s'
  end.

Definition array_index (k : string) : option Z :=
  match k with
  | EmptyString => None
  | String c rest =>
      if all_digits k && (negb (Ascii.eqb c "0"%char) || String.eqb rest "")
      then match parse_digits 10 k None with
           | Some v => if (v <=? 4294967294)%Z then Some v else None
           | None => None
           end
      else None
  end.

End JS.

Export JS.

Notation "x <- r ;; k" := (bind r (fun x => k))
  (at level 61, r at next level, right associativity).

(** ** class AuditLogger *)

Module AuditLogger.

Inductive Status : Type := ALLOWED | DENIED | ERROR.

(** The value handed to [log] as [params], which the entry stores under
    [JSON.stringify]: the argument array of a system call, the object
    [{ username }] of a login, or the empty object of a logout. *)
Inductive Params : Type :=
| PArgs (args : list string)
| PLogin (username : string)
| PEmpty.

(** The two clock readings [log] takes: [Date.now()] for [id] and
    [new Date()] for [timestamp] (kept as the instant that [toISOString]
    renders). *)
Record Clock : Type := mkClock { date_now : Z; new_date : Z }.

Record Entry : Type := mkEntry {
  id : Z;
  timestamp : Z;
  user : string;
  syscall : string;
  params : Params;
  status : Status;
  message : string
}.

(** The logger object: its [logs] array, newest entry first. *)
Record t : Type := mk { logs : list Entry }.

(** [log(user, syscall, params, status, message)]: builds the entry and
    [unshift]s it. *)
Definition log (l : t) (clk : Clock) (user syscall : string) (params : Params)
           (status : Status) (message : string) : t * Entry :=
  let entry := mkEntry (date_now clk) (new_date clk) user syscall params
                       status message in
  (mk (entry :: logs l), entry).

Definition getLogs (l : t) : list Entry := logs l.

Definition clearLogs (l : t) : t := mk [].

End AuditLogger.

(** ** class VirtualFileSystem *)

Module VirtualFileSystem.

(** A node object: [{ type: 'file', content }] or [{ type: 'dir', children }].
    [children] keeps its keys in insertion order. *)
#[warnings="-register-all"]
Inductive node : Type :=
| File (content : jsval)
| Dir (children : list (string * node)).

(** What [children[key]] can evaluate to besides [undefined]: a node stored
    under an own key, or a member inherited from [Object.prototype], which
    is truthy and has no [type]. *)
Inductive jsobject : Type :=
| Own (n : node)
| Inherited (key : string).

Fixpoint own_prop (children : list (string * node)) (key : string)
  : option node :=
  match children with
  | [] => None
  | (k, n) :: rest => if String.eqb k key then Some n else own_prop rest key
  end.

(** [children[key]]; [None] is [undefined]. *)
Definition get_prop (children : list (string * node)) (key : string)
  : option jsobject :=
  match own_prop children key with
  | Some n => Some (Own n)
  | None => if inherited_key key then Some (Inherited key) else None
  end.

(** [children[key] = n] for a key that is not [__proto__]: an own key keeps
    its place, a new key goes last. *)
Fixpoint set_prop (children : list (string * node)) (key : string) (n : node)
  : list (string * node) :=
  match children with
  | [] => [(key, n)]
  | (k, m) :: rest =>
      if String.eqb k key then (k, n) :: rest
      else (k, m) :: set_prop rest key n
  end.

(** [delete children[key]]. *)
Fixpoint delete_prop (children : list (string * node)) (key : string)
  : list (string * node) :=
  match children with
  | [] => []
  | (k, m) :: rest =>
      if String.eqb k key then rest else (k, m) :: delete_prop rest key
  end.

(** The file-system object: its [root]. *)
Record t : Type := mk { root : node }.

(** The tree the constructor builds.  (The [name: '/'] of the root object
    is never read.) *)
Definition seed : t :=
  mk (Dir
    [ ("home", Dir
        [ ("admin", Dir
            [ ("secret.txt", File (JStr "CONFIDENTIAL: Project Blue Book"));
              ("notes.md", File (JStr
                 ("# To Do" ++ String "010" "1. Secure the kernel"
                  ++ String "010" "2. Audit logs"))) ]);
          ("guest", Dir []) ]);
      ("etc", Dir
        [ ("passwd", File (JStr "admin:x:0:0:root:/home/admin:/bin/sh"));
          ("config", File (JStr "mode=secure")) ]);
      ("var", Dir [ ("log", Dir []) ]) ]).

(** [path.split('/').filter(p => p.length > 0)] *)
Definition path_parts (path : string) : list string :=
  filter (fun p => (0 <? String.length p)%nat) (split "/" path).

(** The loop of [resolvePath]: one step per segment from [current]. *)
Fixpoint walk (parts : list string) (current : jsobject) : option jsobject :=
  match parts with
  | [] => Some current
  | part :: rest =>
      match current with
      | Own (Dir children) =>
          match get_prop children part with
          | Some next => walk rest next
          | None => None
          end
      | _ => None
      end
  end.

(** [resolvePath(path)]; [Ok None] is the result [null]. *)
Definition resolvePath (fs : t) (path : jsval) : result (option jsobject) :=
  if strict_eq path "/" then Ok (Some (Own (root fs)))
  else
    s <- receiver path "split" ;;
    Ok (walk (path_parts s) (Own (root fs))).

(** [getParentPath(path)]: [null] or a string. *)
Definition getParentPath (path : jsval) : result jsval :=
  s <- receiver path "split" ;;
  let parts := path_parts s in
  if (List.length parts =? 0)%nat then Ok JNull
  else
    let parts := removelast parts in
    Ok (JStr (if (List.length parts =? 0)%nat then "/"
              else "/" ++ join "/" parts)).

(** [getName(path)]: the last segment, [undefined] when there is none. *)
Definition getName (path : jsval) : result jsval :=
  s <- receiver path "split" ;;
  let parts := path_parts s in
  Ok match parts with
     | [] => JUndefined
     | _ => JStr (last parts "")
     end.

(** [fileExists(path)]: [resolvePath(path) !== null]. *)
Definition fileExists (fs : t) (path : jsval) : result bool :=
  r <- resolvePath fs path ;;
  Ok match r with Some _ => true | None => false end.

(** The assignment [o.f = v] on the node object that [resolvePath] found
    along [parts]: the tree with that one node replaced by [f] of it. *)
Fixpoint update_at (parts : list string) (f : node -> node) (current : node)
  : node :=
  match parts with
  | [] => f current
  | part :: rest =>
      match current with
      | Dir children =>
          match own_prop children part with
          | Some child =>
              Dir (set_prop children part (update_at rest f child))
          | None => current
          end
      | File _ => current
      end
  end.

(** The node object that [resolvePath(path)] returned, mutated in place by
    [f]: it is the node reached by the segments of [path]. *)
Definition mutate (fs : t) (path : jsval) (f : node -> node) : t :=
  mk (update_at (path_parts (to_string path)) f (root fs)).

(** [createFile(path, content = '')] *)
Definition createFile (fs : t) (path content : jsval) : result (t * bool) :=
  let content := match content with JUndefined => JStr "" | c => c end in
  parentPath <- getParentPath path ;;
  filename <- getName path ;;
  parent <- resolvePath fs parentPath ;;
  match parent with
  | Some (Own (Dir children)) =>
      match get_prop children (to_string filename) with
      | Some _ => Throw (Error "File already exists")
      | None =>
          Ok (mutate fs parentPath
                (fun parent =>
                   match parent with
                   | Dir children =>
                       Dir (set_prop children (to_string filename)
                              (File content))
                   | File _ => parent
                   end),
              true)
      end
  | _ => Throw (Error "Parent directory does not exist")
  end.

(** [readFile(path)] *)
Definition readFile (fs : t) (path : jsval) : result jsval :=
  node <- resolvePath fs path ;;
  match node with
  | None => Throw (Error "File not found")
  | Some (Own (File content)) => Ok content
  | Some _ => Throw (Error "Is a directory")
  end.

(** [writeFile(path, content)] *)
Definition writeFile (fs : t) (path content : jsval) : result (t * bool) :=
  node <- resolvePath fs path ;;
  match node with
  | None => Throw (Error "File not found")
  | Some (Own (File _)) =>
      Ok (mutate fs path
            (fun node =>
               match node with
               | File _ => File content
               | Dir _ => node
               end),
          true)
  | Some _ => Throw (Error "Is a directory")
  end.

(** [deleteFile(path)] (present in the annotated copy of the source). *)
Definition deleteFile (fs : t) (path : jsval) : result (t * bool) :=
  parentPath <- getParentPath path ;;
  filename <- getName path ;;
  parent <- resolvePath fs parentPath ;;
  match parent with
  | Some (Own (Dir children)) =>
      match get_prop children (to_string filename) with
      | Some _ =>
          Ok (mutate fs parentPath
                (fun parent =>
                   match parent with
                   | Dir children =>
                       Dir (delete_prop children (to_string filename))
                   | File _ => parent
                   end),
              true)
      | None => Throw (Error "File not found")
      end
  | Some (Own (File _)) =>
      Throw (cannot_read JUndefined (to_string filename))
  | Some (Inherited _) =>
      Throw (cannot_read JUndefined (to_string filename))
  | None => Throw (Error "File not found")
  end.

(** [Object.keys(children)] with the value under each key: array-index
    keys in ascending numeric order, then the other keys in insertion
    order. *)
Fixpoint insert_index (i : Z) (e : string * node)
         (l : list (Z * (string * node))) : list (Z * (string * node)) :=
  match l with
  | [] => [(i, e)]
  | (j, e') :: rest =>
      if (i <? j)%Z then (i, e) :: l else (j, e') :: insert_index i e rest
  end.

Fixpoint index_entries (children : list (string * node))
  : list (Z * (string * node)) :=
  match children with
  | [] => []
  | (k, n) :: rest =>
      match array_index k with
      | Some i => insert_index i (k, n) (index_entries rest)
      | None => index_entries rest
      end
  end.

Definition object_entries (children : list (string * node))
  : list (string * node) :=
  map snd (index_entries children)
  ++ filter (fun e => match array_index (fst e) with
                      | Some _ => false
                      | None => true
                      end) children.

Record DirEntry : Type := mkDirEntry {
  name : string;
  type : string;
  size : nat
}.

(** The callback of [listDir]'s [map]. *)
Definition describe (e : string * node) : result DirEntry :=
  match snd e with
  | File (JStr s) => Ok (mkDirEntry (fst e) "file" (String.length s))
  | File v => Throw (cannot_read v "length")
  | Dir children =>
      Ok (mkDirEntry (fst e) "dir" (List.length (object_entries children)))
  end.

Fixpoint map_result {A B} (f : A -> result B) (l : list A)
  : result (list B) :=
  match l with
  | [] => Ok []
  | a :: rest =>
      b <- f a ;;
      bs <- map_result f rest ;;
      Ok (b :: bs)
  end.

(** [listDir(path)] *)
Definition listDir (fs : t) (path : jsval) : result (list DirEntry) :=
  node <- resolvePath fs path ;;
  match node with
  | None => Throw (Error "Directory not found")
  | Some (Own (Dir children)) => map_result describe (object_entries children)
  | Some _ => Throw (Error "Not a directory")
  end.

End VirtualFileSystem.

(** ** class Kernel *)

Module Kernel.

Import AuditLogger.
Module VFS := VirtualFileSystem.

(** [currentUser.role]: the strings ['root'] and ['user']. *)
Inductive Role : Type := root | user.

Record Session : Type := mkSession { username : string; role : Role }.

(** A process record; [name] is whatever [args[0]] held. *)
Module Process.
Record t : Type := mk {
  pid : Z;
  name : jsval;
  owner : string;
  status : string
}.
End Process.

Record t : Type := mk {
  fs : VFS.t;
  logger : AuditLogger.t;
  currentUser : option Session;
  processes : list Process.t;
  nextPid : Z
}.

Definition with_fs (k : t) (f : VFS.t) : t :=
  mk f (logger k) (currentUser k) (processes k) (nextPid k).

Definition with_user (k : t) (u : option Session) : t :=
  mk (fs k) (logger k) u (processes k) (nextPid k).

(** [this.logger.log(...)], keeping the kernel and dropping the entry the
    callers ignore. *)
Definition log (k : t) (clk : Clock) (user syscall : string)
           (params : Params) (status : Status) (message : string) : t :=
  mk (fs k) (fst (AuditLogger.log (logger k) clk user syscall params
                    status message))
     (currentUser k) (processes k) (nextPid k).

(** [this.logger.clearLogs()], as the controller calls it. *)
Definition clearLogs (k : t) : t :=
  mk (fs k) (AuditLogger.clearLogs (logger k))
     (currentUser k) (processes k) (nextPid k).

(** [createProcess(name, owner)] *)
Definition createProcess (k : t) (name : jsval) (owner : string) : t * Z :=
  let pid := nextPid k in
  (mk (fs k) (logger k) (currentUser k)
      (processes k ++ [Process.mk pid name owner "running"])
      (nextPid k + 1)%Z,
   pid).

(** [processes.findIndex(p => p.pid === parseInt(pid))] followed by
    [splice(idx, 1)]: the table with the first matching record taken out,
    [None] when [findIndex] gives -1. *)
Fixpoint splice_first (target : option Z) (ps : list Process.t)
  : option (list Process.t) :=
  match ps with
  | [] => None
  | p :: rest =>
      if num_eq (Process.pid p) target then Some rest
      else option_map (cons p) (splice_first target rest)
  end.

(** [killProcess(pid)] *)
Definition killProcess (k : t) (pid : jsval) : result (t * bool) :=
  match splice_first (parseInt (to_string pid)) (processes k) with
  | None => Throw (Error "Process not found")
  | Some ps =>
      Ok (mk (fs k) (logger k) (currentUser k) ps (nextPid k), true)
  end.

(** The constructor; [stored] is the array [loadLogs] read back. *)
Definition new (stored : list Entry) : t :=
  fst (createProcess (mk VFS.seed (AuditLogger.mk stored) None [] 100%Z)
         (JStr "init") "system").

(** [login(username, password)] *)
Definition login (k : t) (clk : Clock) (username password : string)
  : t * bool :=
  if String.eqb username "admin" && String.eqb password "admin123" then
    (log (with_user k (Some (mkSession "admin" root))) clk
         "system" "login" (PLogin username) ALLOWED "Auth successful",
     true)
  else if String.eqb username "user" && String.eqb password "user123" then
    (log (with_user k (Some (mkSession "user" user))) clk
         "system" "login" (PLogin username) ALLOWED "Auth successful",
     true)
  else
    (log k clk "system" "login" (PLogin username) DENIED
         "Invalid credentials",
     false).

(** [logout()] *)
Definition logout (k : t) (clk : Clock) : t :=
  match currentUser k with
  | Some u =>
      with_user (log k clk (username u) "logout" PEmpty ALLOWED "") None
  | None => k
  end.

(** [checkAuth()] *)
Definition checkAuth (k : t) : result Session :=
  match currentUser k with
  | Some u => Ok u
  | None => Throw (Error "Not logged in")
  end.

(** [isAdmin()], as a condition. *)
Definition isAdmin (k : t) : bool :=
  match currentUser k with
  | Some u => match role u with root => true | user => false end
  | None => false
  end.

(** What a system call returns. *)
Inductive Value : Type :=
| VInfo (os : string) (user : Session)
| VNumber (n : Z)
| VBool (b : bool)
| VString (s : jsval)
| VEntries (l : list VFS.DirEntry).

(** [args[i]] *)
Definition arg (args : list string) (i : nat) : jsval :=
  match nth_error args i with
  | Some s => JStr s
  | None => JUndefined
  end.

(** The [switch] of [syscall]: the handler selected by [name], run as
    [u].  ([get_info] is the one of [script.js]; the annotated copy adds an
    [uptime] reading to the object.) *)
Definition handler (k : t) (u : Session) (name : string)
           (args : list string) : result (t * Value) :=
  if String.eqb name "get_info" then
    Ok (k, VInfo "SysCall Secure v1.0" u)
  else if String.eqb name "create_process" then
    if negb (isAdmin k) then Throw (Error "Permission denied: requires root")
    else
      let '(k', pid) := createProcess k (arg args 0) (username u) in
      Ok (k', VNumber pid)
  else if String.eqb name "kill_process" then
    if negb (isAdmin k) then Throw (Error "Permission denied: requires root")
    else
      r <- killProcess k (arg args 0) ;;
      Ok (fst r, VBool (snd r))
  else if String.eqb name "open_file" then
    found <- VFS.fileExists (fs k) (arg args 0) ;;
    if negb found then Throw (Error "File not found")
    else Ok (k, VString (JStr "File Descriptor [Mocked]"))
  else if String.eqb name "read_file" then
    path <- receiver (arg args 0) "includes" ;;
    if includes path "/shadow" then Throw (Error "Permission denied")
    else
      content <- VFS.readFile (fs k) (arg args 0) ;;
      Ok (k, VString content)
  else if String.eqb name "write_file" then
    denied <- (if negb (isAdmin k)
               then path <- receiver (arg args 0) "startsWith" ;;
                    Ok (startsWith path "/etc")
               else Ok false) ;;
    if (denied : bool)
    then Throw (Error "Permission denied: /etc is read-only")
    else
      r <- VFS.writeFile (fs k) (arg args 0) (arg args 1) ;;
      Ok (with_fs k (fst r), VBool (snd r))
  else if String.eqb name "create_file" then
    r <- VFS.createFile (fs k) (arg args 0) (arg args 1) ;;
    Ok (with_fs k (fst r), VBool (snd r))
  else if String.eqb name "list_dir" then
    l <- VFS.listDir (fs k) (arg args 0) ;;
    Ok (k, VEntries l)
  else Throw (Error "Unknown system call").

(** The [try] block of [syscall] up to the handler's result. *)
Definition attempt (k : t) (name : string) (args : list string)
  : result (t * Session * Value) :=
  u <- checkAuth k ;;
  r <- handler k u name args ;;
  Ok (fst r, u, snd r).

(** The status the [catch] block logs for [error]. *)
Definition logStatus (error : JsError) : Status :=
  if includes (JS.message error) "Permission" then DENIED else ERROR.

(** [syscall(name, ...args)]: the state after the call and what the caller
    receives, a value or the exception thrown again. *)
Definition syscall (k : t) (clk : Clock) (name : string)
           (args : list string) : t * result Value :=
  match attempt k name args with
  | Ok (k', u, result) =>
      (log k' clk (username u) name (PArgs args) ALLOWED "Success",
       Ok result)
  | Throw error =>
      let user := match currentUser k with
                  | Some u => username u
                  | None => "anonymous"
                  end in
      (log k clk user name (PArgs args) (logStatus error)
           (JS.message error),
       Throw error)
  end.

End Kernel.

(** ** The kernel over its lifetime

  What the controller does with one kernel object from construction on:
  a sequence of logins, logouts, system calls and log clearings, each with
  the clock readings of its moment. *)

Module Lifetime.

Import AuditLogger.

Inductive Op : Type :=
| Login (username password : string)
| Logout
| Syscall (name : string) (args : list string)
| ClearLogs.

Inductive Outcome : Type :=
| LoggedIn (ok : bool)
| Done
| Returned (r : result Kernel.Value).

Definition step (k : Kernel.t) (clk : Clock) (op : Op)
  : Kernel.t * Outcome :=
  match op with
  | Login u p =>
      let '(k', ok) := Kernel.login k clk u p in (k', LoggedIn ok)
  | Logout => (Kernel.logout k clk, Done)
  | Syscall name args =>
      let '(k', r) := Kernel.syscall k clk name args in (k', Returned r)
  | ClearLogs => (Kernel.clearLogs k, Done)
  end.

Fixpoint run (k : Kernel.t) (ops : list (Clock * Op))
  : Kernel.t * list Outcome :=
  match ops with
  | [] => (k, [])
  | (clk, op) :: rest =>
      let '(k1, o) := step k clk op in
      let '(k2, os) := run k1 rest in
      (k2, o :: os)
  end.

(** The pids handed out by [createProcess] during a run: the numbers the
    [create_process] calls returned, in order. *)
Definition issued (outs : list Outcome) : list Z :=
  flat_map (fun o => match o with
                     | Returned (Ok (Kernel.VNumber n)) => [n]
                     | _ => []
                     end) outs.


End Lifetime.

(** * Properties *)

(** ** Splitting and joining paths *)

Section PathSegments.

Import VirtualFileSystem.

(** [s] holds no occurrence of the character [c]. *)
Fixpoint free_of (c : ascii) (s : string) : bool :=
  match s with
  | EmptyString => true
  | String c' s' => negb (Ascii.eqb c' c) && free_of c s'
  end.

Lemma split_not_nil (sep : ascii) (s : string) : split sep s <> [].
Proof.
  induction s as [|c s IH]; simpl; [discriminate|].
  destruct (Ascii.eqb c sep); [discriminate|].
  destruct (split sep s); discriminate.
Qed.

Lemma split_app (sep : ascii) (a b : string) :
  split sep (a ++ String sep b) = split sep a ++ split sep b.
Proof.
  induction a as [|c a IH]; simpl.
  - now rewrite Ascii.eqb_refl.
  - destruct (Ascii.eqb c sep); [now rewrite IH|].
    rewrite IH. pose proof (split_not_nil sep a) as Hne.
    destruct (split sep a); [contradiction|reflexivity].
Qed.

Lemma split_free (sep : ascii) (s : string) :
  free_of sep s = true -> split sep s = [s].
Proof.
  induction s as [|c s IH]; simpl; [reflexivity|].
  intros H. apply andb_true_iff in H as [Hc Hs].
  apply negb_true_iff in Hc. rewrite Hc, (IH Hs). reflexivity.
Qed.

Lemma split_pieces_free (sep : ascii) (s : string) :
  Forall (fun w => free_of sep w = true) (split sep s).
Proof.
  induction s as [|c s IH]; simpl.
  - repeat constructor.
  - destruct (Ascii.eqb c sep) eqn:E.
    + constructor; [reflexivity|assumption].
    + destruct (split sep s) as [|w ws]; simpl.
      * constructor; [simpl; now rewrite E|constructor].
      * inversion IH; subst. constructor; [simpl; now rewrite E|assumption].
Qed.

Lemma split_join (sep : ascii) (l : list string) :
  l <> [] -> Forall (fun w => free_of sep w = true) l ->
  split sep (join (String sep "") l) = l.
Proof.
  unfold join. induction l as [|x l IH]; [congruence|].
  intros _ H. inversion H as [|? ? Hx Hl]; subst.
  destruct l as [|y l]; simpl.
  - now apply split_free.
  - rewrite split_app, (split_free _ _ Hx).
    simpl in IH. rewrite IH; [reflexivity|discriminate|assumption].
Qed.

(** A segment: what [path_parts] leaves of itself. *)
Definition segment (w : string) : Prop :=
  free_of "/" w = true /\ w <> "".

Lemma nonempty_length (w : string) :
  (0 <? String.length w)%nat = true <-> w <> "".
Proof.
  destruct w; simpl; split; intros H; try congruence; try reflexivity.
  discriminate.
Qed.

Lemma path_parts_segments (path : string) :
  Forall segment (path_parts path).
Proof.
  unfold path_parts.
  pose proof (split_pieces_free "/" path) as H.
  induction H as [|w ws Hw _ IH]; simpl; [constructor|].
  destruct (0 <? String.length w)%nat eqn:E; [|assumption].
  constructor; [|assumption].
  split; [assumption|now apply nonempty_length].
Qed.

Lemma path_parts_app (a b : string) :
  path_parts (a ++ String "/" b) = path_parts a ++ path_parts b.
Proof.
  unfold path_parts. now rewrite split_app, filter_app.
Qed.

Lemma filter_segments (l : list string) :
  Forall segment l ->
  filter (fun p => (0 <? String.length p)%nat) l = l.
Proof.
  induction 1 as [|w l [_ Hw] _ IH]; simpl; [reflexivity|].
  apply nonempty_length in Hw. now rewrite Hw, IH.
Qed.

Lemma path_parts_segment (w : string) :
  segment w -> path_parts w = [w].
Proof.
  intros [Hf Hn]. unfold path_parts. rewrite (split_free _ _ Hf).
  simpl. apply nonempty_length in Hn. now rewrite Hn.
Qed.

(** Splitting the string that [getParentPath] builds gives back the
    segments it was joined from. *)
Lemma path_parts_join (l : list string) :
  l <> [] -> Forall segment l ->
  path_parts ("/" ++ join "/" l) = l.
Proof.
  intros Hne Hl.
  change ("/" ++ join "/" l)%string
    with ("" ++ String "/" (join "/" l))%string.
  rewrite path_parts_app. simpl. unfold path_parts.
  rewrite split_join; [now apply filter_segments|assumption|].
  eapply Forall_impl; [|exact Hl]. now intros w [Hw _].
Qed.

End PathSegments.

(** ** The file tree *)

Section FileTree.

Import VirtualFileSystem.

Lemma own_prop_set_prop children key n :
  own_prop (set_prop children key n) key = Some n.
Proof.
  induction children as [|[k m] rest IH]; simpl.
  - now rewrite String.eqb_refl.
  - destruct (String.eqb k key) eqn:E; simpl; now rewrite E.
Qed.

Lemma get_prop_set_prop children key n :
  get_prop (set_prop children key n) key = Some (Own n).
Proof. unfold get_prop. now rewrite own_prop_set_prop. Qed.

Lemma get_prop_own children key n :
  get_prop children key = Some (Own n) -> own_prop children key = Some n.
Proof.
  unfold get_prop. destruct (own_prop children key).
  - now intros [= ->].
  - destruct (inherited_key key); discriminate.
Qed.

Lemma walk_app l1 l2 current :
  walk (l1 ++ l2) current =
  match walk l1 current with
  | Some next => walk l2 next
  | None => None
  end.
Proof.
  revert current. induction l1 as [|part l1 IH]; intros current; simpl.
  - reflexivity.
  - destruct current as [[content|children]|key]; try reflexivity.
    destruct (get_prop children part); [apply IH|reflexivity].
Qed.

(** Nothing is found below a member inherited from [Object.prototype]. *)
Lemma walk_inherited parts key n :
  walk parts (Inherited key) = Some (Own n) -> False.
Proof. destruct parts; simpl; discriminate. Qed.

(** The node a walk ends in is the one [update_at] rewrites, and the same
    walk finds the rewritten node. *)
Lemma walk_update_at parts f current n :
  walk parts (Own current) = Some (Own n) ->
  walk parts (Own (update_at parts f current)) = Some (Own (f n)).
Proof.
  revert current. induction parts as [|part rest IH]; intros current; simpl.
  - now intros [= ->].
  - destruct current as [content|children]; [discriminate|].
    destruct (get_prop children part) as [[m|key]|] eqn:E.
    + intros H. rewrite (get_prop_own _ _ _ E). simpl.
      rewrite get_prop_set_prop. now apply IH.
    + intros H. now apply walk_inherited in H.
    + discriminate.
Qed.

Lemma path_parts_root : path_parts "/" = [].
Proof. reflexivity. Qed.

(** On a string, [resolvePath] is the walk along its non-empty segments;
    the early return for ["/"] agrees with it. *)
Lemma resolvePath_walk fs path :
  resolvePath fs (JStr path)
  = Ok (walk (path_parts path) (Own (root fs))).
Proof.
  unfold resolvePath; simpl.
  destruct (String.eqb path "/") eqn:E; [|reflexivity].
  apply String.eqb_eq in E. subst. reflexivity.
Qed.

Lemma getParentPath_parts path parent :
  getParentPath (JStr path) = Ok (JStr parent) ->
  path_parts path <> []
  /\ path_parts parent = removelast (path_parts path).
Proof.
  unfold getParentPath. cbn [receiver bind].
  pose proof (path_parts_segments path) as Hseg.
  destruct (path_parts path) as [|w ws] eqn:E; [discriminate|].
  cbn [List.length Nat.eqb].
  assert (Hinit : Forall segment (removelast (w :: ws))).
  { revert Hseg. generalize (w :: ws) as l0.
    induction l0 as [|a [|b l0] IH]; intros H; try constructor.
    - now inversion H.
    - apply IH. now inversion H. }
  destruct (removelast (w :: ws)) as [|x l] eqn:R;
    cbn [List.length Nat.eqb]; intros [= <-]; (split; [discriminate|]).
  - reflexivity.
  - exact (path_parts_join (x :: l) ltac:(discriminate) Hinit).
Qed.

Lemma getName_parts path :
  path_parts path <> [] ->
  getName (JStr path) = Ok (JStr (last (path_parts path) "")).
Proof.
  unfold getName; simpl. destruct (path_parts path); congruence.
Qed.

Lemma createFile_readFile fs path content parent children :
  getParentPath (JStr path) = Ok (JStr parent) ->
  resolvePath fs (JStr parent) = Ok (Some (Own (Dir children))) ->
  resolvePath fs (JStr path) = Ok None ->
  exists fs',
    createFile fs (JStr path) (JStr content) = Ok (fs', true)
    /\ readFile fs' (JStr path) = Ok (JStr content).
Proof.
  intros Hparent Hdir Hnone.
  destruct (getParentPath_parts _ _ Hparent) as [Hne Hpp].
  pose proof (app_removelast_last "" Hne) as Hsplit.
  rewrite resolvePath_walk in Hdir, Hnone.
  injection Hdir as Hdir. injection Hnone as Hnone.
  rewrite Hpp in Hdir.
  rewrite Hsplit, walk_app, Hdir in Hnone. simpl in Hnone.
  destruct (get_prop children (last (path_parts path) "")) eqn:G;
    [destruct j; discriminate|].
  eexists. split.
  - unfold createFile. rewrite Hparent, (getName_parts _ Hne).
    cbn [bind]. rewrite resolvePath_walk, Hpp, Hdir.
    cbn [bind to_string]. rewrite G. reflexivity.
  - unfold readFile, mutate. rewrite resolvePath_walk.
    cbn [root to_string bind]. rewrite Hpp.
    rewrite Hsplit at 1. rewrite walk_app.
    rewrite (walk_update_at _ _ _ _ Hdir).
    simpl. now rewrite get_prop_set_prop.
Qed.

Lemma writeFile_readFile fs path content old :
  resolvePath fs (JStr path) = Ok (Some (Own (File old))) ->
  exists fs',
    writeFile fs (JStr path) content = Ok (fs', true)
    /\ readFile fs' (JStr path) = Ok content.
Proof.
  intros Hfile. eexists. split.
  - unfold writeFile. rewrite Hfile. reflexivity.
  - rewrite resolvePath_walk in Hfile. injection Hfile as Hfile.
    unfold readFile, mutate. rewrite resolvePath_walk.
    cbn [root to_string bind].
    now rewrite (walk_update_at _ _ _ _ Hfile).
Qed.

End FileTree.

(** ** Claims on the file system *)

Section FileSystemClaims.

Import VirtualFileSystem.

(** The round trips of the file system on the code's own test of existence.
    When the parent path of [path] resolves to a directory and
    [resolvePath(path)] is [null] (the directory has no child of that name
    and the name is no member inherited from [Object.prototype]),
    [createFile(path, c)] succeeds and [readFile(path)] then returns exactly
    [c]; when [path] resolves to a file, [writeFile(path, c2)] succeeds and
    [readFile(path)] then returns exactly [c2]. *)
Theorem file_round_trip :
  (forall fs path c parent children,
      getParentPath (JStr path) = Ok (JStr parent) ->
      resolvePath fs (JStr parent) = Ok (Some (Own (Dir children))) ->
      resolvePath fs (JStr path) = Ok None ->
      exists fs',
        createFile fs (JStr path) (JStr c) = Ok (fs', true)
        /\ readFile fs' (JStr path) = Ok (JStr c))
  /\
  (forall fs path c2 old,
      resolvePath fs (JStr path) = Ok (Some (Own (File old))) ->
      exists fs',
        writeFile fs (JStr path) (JStr c2) = Ok (fs', true)
        /\ readFile fs' (JStr path) = Ok (JStr c2)).
Proof.
  split.
  - intros. eapply createFile_readFile; eassumption.
  - intros. eapply writeFile_readFile; eassumption.
Qed.

Lemma file_round_trip_witness :
  (exists fs',
      createFile seed (JStr "/home/guest/new.txt") (JStr "Hello World")
      = Ok (fs', true)
      /\ readFile fs' (JStr "/home/guest/new.txt") = Ok (JStr "Hello World"))
  /\
  (exists fs',
      writeFile seed (JStr "/etc/config") (JStr "mode=open") = Ok (fs', true)
      /\ readFile fs' (JStr "/etc/config") = Ok (JStr "mode=open")).
Proof.
  split.
  - apply (proj1 file_round_trip seed "/home/guest/new.txt" "Hello World"
             "/home/guest" []); reflexivity.
  - apply (proj2 file_round_trip seed "/etc/config" "mode=open"
             (JStr "mode=secure")); reflexivity.
Defined.

(** A name inherited from [Object.prototype] counts as present in every
    directory: the file cannot be created although no node is stored. *)
Example createFile_inherited_name :
  resolvePath seed (JStr "/home/guest/constructor")
  = Ok (Some (Inherited "constructor"))
  /\ createFile seed (JStr "/home/guest/constructor") (JStr "x")
     = Throw (Error "File already exists").
Proof. split; reflexivity. Qed.

(** C6, where the code departs from it.  In the seeded tree [/home/guest]
    is a directory without any child ([listDir] returns no entry), so the
    parent of [/home/guest/constructor] exists and no node exists at that
    path; yet [createFile] refuses the path with [File already exists],
    because [parent.children[filename]] finds the [constructor] that every
    object inherits from [Object.prototype].  No file is created: the tree
    stays as it is and [readFile] of the path returns no content. *)
Theorem createFile_refuses_inherited_name :
  resolvePath seed (JStr "/home/guest") = Ok (Some (Own (Dir [])))
  /\ getParentPath (JStr "/home/guest/constructor") = Ok (JStr "/home/guest")
  /\ listDir seed (JStr "/home/guest") = Ok []
  /\ createFile seed (JStr "/home/guest/constructor") (JStr "x")
     = Throw (Error "File already exists")
  /\ readFile seed (JStr "/home/guest/constructor")
     = Throw (Error "Is a directory")
  /\ (exists fs',
        createFile seed (JStr "/home/guest/notes") (JStr "x") = Ok (fs', true)
        /\ readFile fs' (JStr "/home/guest/notes") = Ok (JStr "x")).
Proof.
  repeat split. eexists. split; reflexivity.
Qed.

(** The child [name] of whatever [path] resolves to, as one more step of
    the loop of [resolvePath] looks it up. *)
Definition child_of (fs : t) (path name : string)
  : result (option jsobject) :=
  match resolvePath fs (JStr path) with
  | Ok (Some (Own (Dir children))) => Ok (get_prop children name)
  | Ok _ => Ok None
  | Throw e => Throw e
  end.

Lemma resolvePath_child fs path name :
  segment name ->
  resolvePath fs (JStr (path ++ String "/" name)) = child_of fs path name.
Proof.
  intros Hname. unfold child_of. rewrite !resolvePath_walk.
  rewrite path_parts_app, (path_parts_segment _ Hname), walk_app.
  destruct (walk (path_parts path) (Own (root fs)))
    as [[[content|children]|key]|]; simpl; try reflexivity.
  now destruct (get_prop children name).
Qed.

Lemma resolvePath_empty_segment fs a b :
  resolvePath fs (JStr (a ++ "//" ++ b))
  = resolvePath fs (JStr (a ++ "/" ++ b)).
Proof.
  rewrite !resolvePath_walk.
  change (a ++ "//" ++ b)%string with (a ++ String "/" (String "/" b))%string.
  change (a ++ "/" ++ b)%string with (a ++ String "/" b)%string.
  rewrite !path_parts_app.
  change (String "/" b) with ("" ++ String "/" b)%string.
  rewrite path_parts_app. reflexivity.
Qed.

(** The rest of a path, resolved from the object a first part of it led
    to: the loop of [resolvePath] going on from there. *)
Definition continue_from (r : result (option jsobject)) (rest : string)
  : result (option jsobject) :=
  match r with
  | Ok (Some o) => Ok (walk (path_parts rest) o)
  | Ok None => Ok None
  | Throw e => Throw e
  end.

Lemma resolvePath_through fs path name rest :
  segment name ->
  resolvePath fs (JStr (path ++ "/" ++ name ++ "/" ++ rest))
  = continue_from (child_of fs path name) rest.
Proof.
  intros Hname. unfold continue_from, child_of. rewrite !resolvePath_walk.
  change (path ++ "/" ++ name ++ "/" ++ rest)%string
    with (path ++ String "/" (name ++ String "/" rest))%string.
  rewrite !path_parts_app, (path_parts_segment _ Hname), walk_app.
  destruct (walk (path_parts path) (Own (root fs)))
    as [[[content|children]|key]|]; try reflexivity.
  cbn [app walk]. now destruct (get_prop children name).
Qed.

Lemma dot_segment : segment ".".
Proof. split; [reflexivity|discriminate]. Qed.

Lemma dotdot_segment : segment "..".
Proof. split; [reflexivity|discriminate]. Qed.

(** C8, as the code has it.  [resolvePath] does not interpret ["."] and
    [".."]: wherever such a segment stands in a path, at its end or
    before further segments, it is looked up like every other segment, as
    the child of that literal name of the directory reached so far, and
    the rest of the path is resolved from that child; where the directory
    has no child of that name the path resolves to nothing.  Empty
    segments are dropped, so a doubled separator resolves like a single
    one. *)
Theorem resolvePath_no_dot_navigation :
  (forall fs, resolvePath fs (JStr "/") = Ok (Some (Own (root fs))))
  /\ (forall fs path name,
         segment name ->
         resolvePath fs (JStr (path ++ "/" ++ name)) = child_of fs path name)
  /\ (forall fs path name rest,
         segment name ->
         resolvePath fs (JStr (path ++ "/" ++ name ++ "/" ++ rest))
         = continue_from (child_of fs path name) rest)
  /\ (forall fs path,
         resolvePath fs (JStr (path ++ "/.")) = child_of fs path ".")
  /\ (forall fs path,
         resolvePath fs (JStr (path ++ "/..")) = child_of fs path "..")
  /\ (forall fs path rest,
         resolvePath fs (JStr (path ++ "/./" ++ rest))
         = continue_from (child_of fs path ".") rest)
  /\ (forall fs path rest,
         resolvePath fs (JStr (path ++ "/../" ++ rest))
         = continue_from (child_of fs path "..") rest)
  /\ (forall fs path rest dot,
         dot = "." \/ dot = ".." ->
         child_of fs path dot = Ok None ->
         resolvePath fs (JStr (path ++ "/" ++ dot ++ "/" ++ rest)) = Ok None)
  /\ (forall fs a b,
         resolvePath fs (JStr (a ++ "//" ++ b))
         = resolvePath fs (JStr (a ++ "/" ++ b))).
Proof.
  repeat apply conj.
  - reflexivity.
  - intros. now apply resolvePath_child.
  - intros. now apply resolvePath_through.
  - intros. apply resolvePath_child, dot_segment.
  - intros. apply resolvePath_child, dotdot_segment.
  - intros. apply (resolvePath_through fs path "." rest dot_segment).
  - intros. apply (resolvePath_through fs path ".." rest dotdot_segment).
  - intros fs path rest dot Hdot Hnone.
    rewrite resolvePath_through; [now rewrite Hnone|].
    destruct Hdot as [-> | ->]; [apply dot_segment|apply dotdot_segment].
  - exact resolvePath_empty_segment.
Qed.

Lemma resolvePath_no_dot_navigation_witness :
  resolvePath seed (JStr ("/home/admin" ++ "/" ++ ".."))
  = child_of seed "/home/admin" ".."
  /\ resolvePath seed
       (JStr ("/home" ++ "/" ++ "admin" ++ "/" ++ "secret.txt"))
     = continue_from (child_of seed "/home" "admin") "secret.txt"
  /\ resolvePath seed
       (JStr ("/home" ++ "/" ++ "." ++ "/" ++ "admin/secret.txt"))
     = Ok None.
Proof.
  split; [|split].
  - apply (proj1 (proj2 resolvePath_no_dot_navigation) seed "/home/admin"
             "..").
    split; [reflexivity|discriminate].
  - apply (proj1 (proj2 (proj2 resolvePath_no_dot_navigation)) seed "/home"
             "admin" "secret.txt").
    split; [reflexivity|discriminate].
  - apply (proj1 (proj2 (proj2 (proj2 (proj2 (proj2 (proj2 (proj2
             resolvePath_no_dot_navigation))))))) seed "/home"
             "admin/secret.txt" ".").
    + left. reflexivity.
    + reflexivity.
Defined.

(** C8, as stated, fails: in the seeded tree the path with doubled
    separators resolves to the very node of the path with single ones. *)
Lemma duplicate_separators_resolve_alike :
  resolvePath seed (JStr "//etc//passwd")
  = resolvePath seed (JStr "/etc/passwd")
  /\ resolvePath seed (JStr "//etc//passwd")
     = Ok (Some (Own (File (JStr "admin:x:0:0:root:/home/admin:/bin/sh")))).
Proof. split; reflexivity. Qed.

(** In the seeded tree [".."] and ["."] name no child, so paths through
    them resolve to nothing. *)
Example dot_segments_in_seed :
  resolvePath seed (JStr "/home/admin/../guest") = Ok None
  /\ resolvePath seed (JStr "/home/./admin") = Ok None
  /\ resolvePath seed (JStr "/home/./admin/secret.txt") = Ok None
  /\ resolvePath seed (JStr "/home/admin") <> Ok None.
Proof. repeat split; try reflexivity. discriminate. Qed.

(** Where a directory does hold a child named [".."], the segment leads
    into that child and not back to the parent. *)
Example dotdot_child_is_entered :
  let fs := mk (Dir [("a", Dir [("..", Dir [("b", File (JStr "in"))])]);
                     ("b", File (JStr "out"))]) in
  readFile fs (JStr "/a/../b") = Ok (JStr "in").
Proof. reflexivity. Qed.

End FileSystemClaims.

(** ** The dispatcher *)

Section Dispatcher.

Import AuditLogger Kernel.

(** Takes the [switch] apart, one [case] after the other. *)
Ltac by_case name :=
  unfold handler;
  repeat match goal with
         | |- context [String.eqb name ?s] =>
             let E := fresh "Ename" in
             destruct (String.eqb name s) eqn:E
         end.

(** A handler that returns leaves the log and the session alone. *)
Lemma handler_keeps k u name args k' v :
  handler k u name args = Ok (k', v) ->
  logger k' = logger k /\ currentUser k' = currentUser k.
Proof.
  by_case name.
  - now intros [= <- _].
  - destruct (isAdmin k); [|discriminate]. now intros [= <- _].
  - destruct (isAdmin k); [|discriminate]. unfold killProcess.
    destruct (splice_first _ _); [|discriminate]. now intros [= <- _].
  - destruct (VFS.fileExists _ _) as [[|]|]; try discriminate.
    now intros [= <- _].
  - destruct (receiver _ _); [|discriminate]. cbn [bind].
    destruct (includes _ _); [discriminate|].
    destruct (VFS.readFile _ _); [|discriminate]. now intros [= <- _].
  - destruct (isAdmin k); cbn [negb bind].
    + destruct (VFS.writeFile _ _ _); [|discriminate]. now intros [= <- _].
    + destruct (receiver _ _); [|discriminate]. cbn [bind].
      destruct (startsWith _ _); [discriminate|].
      destruct (VFS.writeFile _ _ _); [|discriminate]. now intros [= <- _].
  - destruct (VFS.createFile _ _ _); [|discriminate]. now intros [= <- _].
  - destruct (VFS.listDir _ _); [|discriminate]. now intros [= <- _].
  - discriminate.
Qed.

Lemma attempt_keeps k name args k' u v :
  attempt k name args = Ok (k', u, v) ->
  logger k' = logger k /\ currentUser k' = currentUser k
  /\ currentUser k = Some u.
Proof.
  unfold attempt, checkAuth.
  destruct (currentUser k) as [u0|] eqn:Eu; [|discriminate]. cbn [bind].
  destruct (handler k u0 name args) as [[k1 v1]|] eqn:H; [|discriminate].
  intros [= <- <- <-]. destruct (handler_keeps _ _ _ _ _ _ H) as [Hl Hu].
  repeat split; congruence.
Qed.

(** The log after a call to [log]. *)
Lemma logs_log k clk user syscall params status message :
  logs (logger (log k clk user syscall params status message))
  = mkEntry (date_now clk) (new_date clk) user syscall params status message
    :: logs (logger k).
Proof. reflexivity. Qed.

(** C1. With no session, every call of the dispatcher, whatever the name
    and the arguments, fails with the error [Not logged in], and exactly
    one entry is put on the log, of user ["anonymous"] and status [ERROR];
    nothing else of the kernel changes. *)
Theorem syscall_not_authenticated k clk name args :
  currentUser k = None ->
  let (k', r) := Kernel.syscall k clk name args in
  r = Throw (Error "Not logged in")
  /\ (exists entry,
         logs (logger k') = entry :: logs (logger k)
         /\ AuditLogger.user entry = "anonymous"
         /\ AuditLogger.status entry = ERROR
         /\ AuditLogger.syscall entry = name
         /\ AuditLogger.params entry = PArgs args
         /\ AuditLogger.message entry = "Not logged in")
  /\ fs k' = fs k /\ processes k' = processes k /\ nextPid k' = nextPid k
  /\ currentUser k' = None.
Proof.
  intros Hnone. unfold Kernel.syscall, attempt, checkAuth.
  rewrite Hnone. cbn [bind].
  split; [reflexivity|]. split.
  - eexists. rewrite logs_log. repeat split.
  - repeat split. exact Hnone.
Qed.

Lemma syscall_not_authenticated_witness :
  let (k', r) := Kernel.syscall (new []) (mkClock 7 7) "read_file"
                   ["/etc/passwd"] in
  r = Throw (Error "Not logged in")
  /\ (exists entry,
         logs (logger k') = entry :: logs (logger (new []))
         /\ AuditLogger.user entry = "anonymous"
         /\ AuditLogger.status entry = ERROR
         /\ AuditLogger.syscall entry = "read_file"
         /\ AuditLogger.params entry = PArgs ["/etc/passwd"]
         /\ AuditLogger.message entry = "Not logged in")
  /\ fs k' = fs (new []) /\ processes k' = processes (new [])
  /\ nextPid k' = nextPid (new [])
  /\ currentUser k' = None.
Proof.
  apply (syscall_not_authenticated (new []) (mkClock 7 7) "read_file"
           ["/etc/passwd"]).
  reflexivity.
Defined.

(** C5. Every call of the dispatcher, returning or throwing, makes the log
    exactly one entry longer, and [clearLogs] leaves a log of length 0. *)
Theorem syscall_logs_once :
  (forall k clk name args,
      List.length (logs (logger (fst (Kernel.syscall k clk name args))))
      = S (List.length (logs (logger k))))
  /\ (forall l, List.length (logs (AuditLogger.clearLogs l)) = 0)
  /\ (forall k, List.length (logs (logger (Kernel.clearLogs k))) = 0).
Proof.
  split; [|split; reflexivity].
  intros k clk name args. unfold Kernel.syscall.
  destruct (attempt k name args) as [[[k' u] v]|e] eqn:H.
  - apply attempt_keeps in H as [Hl _]. cbn [fst]. rewrite logs_log.
    cbn [List.length]. now rewrite Hl.
  - cbn [fst]. now rewrite logs_log.
Qed.

End Dispatcher.

(** ** The failures a call can raise *)

Section Failures.

Import AuditLogger Kernel.

(** The refusals of permission among the errors of the source. *)
Definition permission_refusals : list JsError :=
  [ Error "Permission denied: requires root";
    Error "Permission denied";
    Error "Permission denied: /etc is read-only" ].

(** Every other exception: the remaining [throw new Error] of the source
    and the [TypeError]s of member accesses on a missing argument, on the
    [null] of [getParentPath] and on a content left [undefined]. *)
Definition other_failures : list JsError :=
  [ Error "Not logged in";
    Error "File not found";
    Error "Is a directory";
    Error "Directory not found";
    Error "Not a directory";
    Error "Parent directory does not exist";
    Error "File already exists";
    Error "Process not found";
    Error "Unknown system call";
    cannot_read JUndefined "split";
    cannot_read JNull "split";
    cannot_read JUndefined "includes";
    cannot_read JUndefined "startsWith";
    cannot_read JUndefined "length";
    cannot_read JNull "length" ].

Ltac pick := solve [simpl; repeat (first [left; reflexivity | right])].

Lemma arg_cases args i :
  arg args i = JUndefined \/ exists s, arg args i = JStr s.
Proof. unfold arg. destruct (nth_error args i); eauto. Qed.

Lemma split_throws (v : jsval) e :
  receiver v "split" = Throw e -> In e other_failures.
Proof. destruct v; simpl; intros [= <-]; pick. Qed.

Lemma resolvePath_throws fs v e :
  VFS.resolvePath fs v = Throw e -> In e other_failures.
Proof.
  unfold VFS.resolvePath. destruct (strict_eq v "/"); [discriminate|].
  destruct (receiver v "split") eqn:R; [discriminate|].
  intros [= <-]. eapply split_throws; eassumption.
Qed.

Lemma getParentPath_throws v e :
  VFS.getParentPath v = Throw e -> In e other_failures.
Proof.
  unfold VFS.getParentPath.
  destruct (receiver v "split") eqn:R; cbn [bind].
  - destruct (_ =? _)%nat; discriminate.
  - intros [= <-]. eapply split_throws; eassumption.
Qed.

Lemma getName_throws v e :
  VFS.getName v = Throw e -> In e other_failures.
Proof.
  unfold VFS.getName.
  destruct (receiver v "split") eqn:R; cbn [bind]; [discriminate|].
  intros [= <-]. eapply split_throws; eassumption.
Qed.

Lemma fileExists_throws fs v e :
  VFS.fileExists fs v = Throw e -> In e other_failures.
Proof.
  unfold VFS.fileExists.
  destruct (VFS.resolvePath fs v) eqn:R; cbn [bind]; [discriminate|].
  intros [= <-]. eapply resolvePath_throws; eassumption.
Qed.

Lemma readFile_throws fs v e :
  VFS.readFile fs v = Throw e -> In e other_failures.
Proof.
  unfold VFS.readFile.
  destruct (VFS.resolvePath fs v) as [[[[c|ch]|key]|]|e0] eqn:R;
    cbn [bind]; try discriminate; intros [= <-]; try pick.
  eapply resolvePath_throws; eassumption.
Qed.

Lemma writeFile_throws fs v c e :
  VFS.writeFile fs v c = Throw e -> In e other_failures.
Proof.
  unfold VFS.writeFile.
  destruct (VFS.resolvePath fs v) as [[[[c0|ch]|key]|]|e0] eqn:R;
    cbn [bind]; try discriminate; intros [= <-]; try pick.
  eapply resolvePath_throws; eassumption.
Qed.

Lemma createFile_throws fs v c e :
  VFS.createFile fs v c = Throw e -> In e other_failures.
Proof.
  unfold VFS.createFile.
  destruct (VFS.getParentPath v) as [parent|e0] eqn:P; cbn [bind];
    [|intros [= <-]; eapply getParentPath_throws; eassumption].
  destruct (VFS.getName v) as [name|e0] eqn:N; cbn [bind];
    [|intros [= <-]; eapply getName_throws; eassumption].
  destruct (VFS.resolvePath fs parent) as [[[[c0|ch]|key]|]|e0] eqn:R;
    cbn [bind]; try (intros [= <-]; pick).
  - destruct (VFS.get_prop ch (to_string name)); [|discriminate].
    intros [= <-]; pick.
  - intros [= <-]. eapply resolvePath_throws; eassumption.
Qed.

Lemma describe_throws l e :
  VFS.map_result VFS.describe l = Throw e -> In e other_failures.
Proof.
  induction l as [|[key [[| |s]|ch]] l IH]; cbn; try discriminate;
    try (intros [= <-]; pick).
  - destruct (VFS.map_result VFS.describe l); [discriminate|].
    intros [= <-]. now apply IH.
  - destruct (VFS.map_result VFS.describe l); [discriminate|].
    intros [= <-]. now apply IH.
Qed.

Lemma listDir_throws fs v e :
  VFS.listDir fs v = Throw e -> In e other_failures.
Proof.
  unfold VFS.listDir.
  destruct (VFS.resolvePath fs v) as [[[[c0|ch]|key]|]|e0] eqn:R;
    cbn [bind]; try (intros [= <-]; pick).
  - apply describe_throws.
  - intros [= <-]. eapply resolvePath_throws; eassumption.
Qed.

Lemma killProcess_throws k v e :
  killProcess k v = Throw e -> In e other_failures.
Proof.
  unfold killProcess. destruct (splice_first _ _); [discriminate|].
  intros [= <-]; pick.
Qed.

Lemma receiver_arg_throws args i prop e :
  receiver (arg args i) prop = Throw e -> e = cannot_read JUndefined prop.
Proof.
  destruct (arg_cases args i) as [-> | [s ->]]; simpl; congruence.
Qed.

(** Every exception that leaves the [try] block is one of the listed. *)
Lemma attempt_throws k name args e :
  attempt k name args = Throw e ->
  In e permission_refusals \/ In e other_failures.
Proof.
  unfold attempt, checkAuth.
  destruct (currentUser k) as [u|]; cbn [bind];
    [|intros [= <-]; right; pick].
  destruct (handler k u name args) as [[k' v]|e0] eqn:H; [discriminate|].
  intros [= <-]. revert H. unfold handler.
  repeat match goal with
         | |- context [String.eqb name ?s] => destruct (String.eqb name s)
         end.
  - discriminate.
  - destruct (isAdmin k); cbn [negb]; [discriminate|].
    intros [= <-]; left; pick.
  - destruct (isAdmin k); cbn [negb]; [|intros [= <-]; left; pick].
    destruct (killProcess k (arg args 0)) eqn:K; [discriminate|].
    intros [= <-]. right. eapply killProcess_throws; eassumption.
  - destruct (VFS.fileExists (fs k) (arg args 0)) as [[|]|] eqn:F;
      cbn [bind negb]; try discriminate.
    + intros [= <-]; right; pick.
    + intros [= <-]. right. eapply fileExists_throws; eassumption.
  - destruct (receiver (arg args 0) "includes") eqn:R; cbn [bind].
    + destruct (includes a "/shadow"); [intros [= <-]; left; pick|].
      destruct (VFS.readFile (fs k) (arg args 0)) eqn:F; [discriminate|].
      intros [= <-]. right. eapply readFile_throws; eassumption.
    + intros [= <-]. apply receiver_arg_throws in R as ->. right; pick.
  - destruct (isAdmin k); cbn [negb bind].
    + destruct (VFS.writeFile (fs k) _ _) eqn:F; [discriminate|].
      intros [= <-]. right. eapply writeFile_throws; eassumption.
    + destruct (receiver (arg args 0) "startsWith") eqn:R; cbn [bind].
      * destruct (startsWith a "/etc"); [intros [= <-]; left; pick|].
        destruct (VFS.writeFile (fs k) _ _) eqn:F; [discriminate|].
        intros [= <-]. right. eapply writeFile_throws; eassumption.
      * intros [= <-]. apply receiver_arg_throws in R as ->. right; pick.
  - destruct (VFS.createFile (fs k) _ _) eqn:F; [discriminate|].
    intros [= <-]. right. eapply createFile_throws; eassumption.
  - destruct (VFS.listDir (fs k) _) eqn:F; [discriminate|].
    intros [= <-]. right. eapply listDir_throws; eassumption.
  - intros [= <-]; right; pick.
Qed.

Lemma logStatus_refusals :
  Forall (fun e => logStatus e = DENIED) permission_refusals.
Proof. repeat constructor. Qed.

Lemma logStatus_others :
  Forall (fun e => logStatus e = ERROR) other_failures.
Proof. repeat constructor. Qed.

End Failures.

(** ** Claims on the dispatcher's failures and guards *)

Section DispatcherClaims.

Import AuditLogger Kernel.

(** What the caller and the log see of a call that fails with [e]: the
    same exception comes out, one entry carrying its message goes on the
    log with the status the [catch] block computes, and the rest of the
    kernel is as before. *)
Definition logged_and_rethrown (k : Kernel.t) (clk : Clock) (name : string)
           (args : list string) (e : JsError) : Prop :=
  let (k', r) := Kernel.syscall k clk name args in
  r = Throw e
  /\ (exists entry,
         logs (logger k') = entry :: logs (logger k)
         /\ AuditLogger.syscall entry = name
         /\ AuditLogger.message entry = JS.message e
         /\ AuditLogger.status entry
            = (if includes (JS.message e) "Permission"
               then DENIED else ERROR)
         /\ (AuditLogger.status entry = DENIED
             <-> In e permission_refusals)
         /\ (AuditLogger.status entry = ERROR <-> In e other_failures))
  /\ fs k' = fs k /\ processes k' = processes k
  /\ nextPid k' = nextPid k /\ currentUser k' = currentUser k.

(** What a refused call leaves: the permission error for the caller and a
    [DENIED] entry of the calling user on the log. *)
Definition refused_as_denied (k : Kernel.t) (clk : Clock) (name : string)
           (args : list string) (u : Session) : Prop :=
  let (k', r) := Kernel.syscall k clk name args in
  r = Throw (Error "Permission denied: requires root")
  /\ exists entry,
       logs (logger k') = entry :: logs (logger k)
       /\ AuditLogger.user entry = username u
       /\ AuditLogger.status entry = DENIED.

Lemma status_of_failure e :
  In e permission_refusals \/ In e other_failures ->
  (logStatus e = DENIED <-> In e permission_refusals)
  /\ (logStatus e = ERROR <-> In e other_failures).
Proof.
  pose proof (proj1 (Forall_forall _ _) logStatus_refusals) as Hr.
  pose proof (proj1 (Forall_forall _ _) logStatus_others) as Ho.
  intros [H|H].
  - pose proof (Hr _ H) as E. rewrite E. split; split; auto.
    + discriminate.
    + intros H'. apply Ho in H'. congruence.
  - pose proof (Ho _ H) as E. rewrite E. split; split; auto.
    + discriminate.
    + intros H'. apply Hr in H'. congruence.
Qed.

(** C2. Whenever the handler of a call raises a failure, the dispatcher
    logs one entry, [DENIED] when the message tells a refusal of permission
    (it contains ["Permission"], which holds of exactly the permission
    errors of the source) and [ERROR] for every other failure, and throws
    the same failure to the caller.  In particular [create_process] and
    [kill_process] under a session that is not root fail with the
    permission error and are logged as [DENIED]. *)
Theorem failure_logged_and_rethrown k clk name args :
  (forall e,
      attempt k name args = Throw e ->
      logged_and_rethrown k clk name args e)
  /\ (forall u,
         currentUser k = Some u -> role u <> root ->
         name = "create_process" \/ name = "kill_process" ->
         refused_as_denied k clk name args u).
Proof.
  split.
  - intros e H. unfold logged_and_rethrown, Kernel.syscall. rewrite H.
    split; [reflexivity|]. split; [|repeat split].
    eexists. rewrite logs_log. split; [reflexivity|].
    cbn [AuditLogger.syscall AuditLogger.message AuditLogger.status].
    destruct (status_of_failure e (attempt_throws _ _ _ _ H)) as [Hd He].
    repeat split; try reflexivity; try apply Hd; try apply He.
  - intros u Hu Hrole Hname.
    assert (H : attempt k name args
                = Throw (Error "Permission denied: requires root")).
    { unfold attempt, checkAuth. rewrite Hu. cbn [bind].
      assert (Hadm : isAdmin k = false).
      { unfold isAdmin. rewrite Hu. destruct (role u); congruence. }
      destruct Hname as [-> | ->]; unfold handler; cbn [String.eqb];
        simpl; rewrite Hadm; reflexivity. }
    unfold refused_as_denied, Kernel.syscall. rewrite H, Hu.
    split; [reflexivity|]. eexists. rewrite logs_log. repeat split.
Qed.

Lemma failure_logged_and_rethrown_witness :
  let k := fst (login (new []) (mkClock 1 1) "user" "user123") in
  logged_and_rethrown k (mkClock 2 2) "kill_process" ["100"]
    (Error "Permission denied: requires root")
  /\ refused_as_denied k (mkClock 2 2) "kill_process" ["100"]
       (mkSession "user" user).
Proof.
  intros k. split.
  - apply (proj1 (failure_logged_and_rethrown k (mkClock 2 2)
                    "kill_process" ["100"])).
    reflexivity.
  - apply (proj2 (failure_logged_and_rethrown k (mkClock 2 2)
                    "kill_process" ["100"])).
    + reflexivity.
    + discriminate.
    + right. reflexivity.
Defined.

(** C3, as the code has it.  For every session, root included, and every
    path that contains ["/shadow"], [read_file] fails with
    [Permission denied]; the call is logged as [DENIED] and returns no
    content. *)
Theorem read_file_shadow_denied k clk u path rest :
  currentUser k = Some u ->
  includes path "/shadow" = true ->
  Kernel.syscall k clk "read_file" (path :: rest)
  = (log k clk (username u) "read_file" (PArgs (path :: rest)) DENIED
         "Permission denied",
     Throw (Error "Permission denied")).
Proof.
  intros Hu Hpath. unfold Kernel.syscall, attempt, checkAuth.
  rewrite Hu. cbn [bind]. unfold handler. simpl String.eqb. cbn iota.
  cbn [arg nth_error receiver bind]. rewrite Hpath. reflexivity.
Qed.

Lemma read_file_shadow_denied_witness :
  Kernel.syscall (fst (login (new []) (mkClock 1 1) "admin" "admin123"))
    (mkClock 2 2) "read_file" ["/etc/shadow"]
  = (log (fst (login (new []) (mkClock 1 1) "admin" "admin123"))
         (mkClock 2 2) "admin" "read_file" (PArgs ["/etc/shadow"]) DENIED
         "Permission denied",
     Throw (Error "Permission denied")).
Proof.
  apply (read_file_shadow_denied
           (fst (login (new []) (mkClock 1 1) "admin" "admin123"))
           (mkClock 2 2) (mkSession "admin" root) "/etc/shadow" []);
    reflexivity.
Defined.

(** C3, as stated, fails: each of the two paths below contains ["shadow"]
    (the second has it as its only segment), and a root session that has
    created the file reads its content back. *)
Lemma read_file_shadow_substring_read :
  let k0 := fst (login (new []) (mkClock 1 1) "admin" "admin123") in
  let after path :=
    fst (Kernel.syscall k0 (mkClock 2 2) "create_file" [path; "s3cret"]) in
  let read path :=
    snd (Kernel.syscall (after path) (mkClock 3 3) "read_file" [path]) in
  currentUser k0 = Some (mkSession "admin" root)
  /\ includes "/home/guest/myshadow" "shadow" = true
  /\ read "/home/guest/myshadow" = Ok (VString (JStr "s3cret"))
  /\ includes "shadow" "shadow" = true
  /\ VFS.path_parts "shadow" = ["shadow"]
  /\ read "shadow" = Ok (VString (JStr "s3cret")).
Proof. repeat split. Qed.

End DispatcherClaims.

(** ** Claims on [write_file], [login] and the process table *)

Section KernelClaims.

Import AuditLogger Kernel.

(** The guard of [write_file] on the text of the path: when the path
    begins with ["/etc"] and resolves to a file, a session that is not root
    is refused and a root session replaces the content. *)
Lemma write_file_etc_prefix k clk u path content rest old :
  currentUser k = Some u ->
  startsWith path "/etc" = true ->
  VFS.resolvePath (fs k) (JStr path) = Ok (Some (VFS.Own (VFS.File old))) ->
  match role u with
  | user =>
      Kernel.syscall k clk "write_file" (path :: content :: rest)
      = (log k clk (username u) "write_file"
             (PArgs (path :: content :: rest)) DENIED
             "Permission denied: /etc is read-only",
         Throw (Error "Permission denied: /etc is read-only"))
  | root =>
      exists fs',
        Kernel.syscall k clk "write_file" (path :: content :: rest)
        = (log (with_fs k fs') clk (username u) "write_file"
               (PArgs (path :: content :: rest)) ALLOWED "Success",
           Ok (VBool true))
        /\ VFS.readFile fs' (JStr path) = Ok (JStr content)
  end.
Proof.
  intros Hu Hetc Hfile.
  destruct (writeFile_readFile (fs k) path (JStr content) old Hfile)
    as [fs' [Hw Hr]].
  unfold Kernel.syscall, attempt, checkAuth. rewrite Hu. cbn [bind].
  unfold handler, isAdmin. simpl String.eqb. cbn iota. rewrite Hu.
  cbn [arg nth_error receiver bind].
  destruct (role u); cbn [negb bind].
  - exists fs'. rewrite Hw. cbn [bind fst snd]. split; [reflexivity|exact Hr].
  - rewrite Hetc. reflexivity.
Qed.

(** C4, where the code departs from it.  In the seeded tree, under the
    session of the standard account, [write_file] on ["/etc/passwd"] is
    refused, yet on ["//etc/passwd"], which resolves to the same file of
    [/etc], it succeeds: the call is logged as [ALLOWED] and the content
    of [/etc/passwd] is replaced. *)
Theorem write_file_etc_doubled_separator :
  let k := fst (login (new []) (mkClock 1 1) "user" "user123") in
  VFS.resolvePath (fs k) (JStr "//etc/passwd")
  = VFS.resolvePath (fs k) (JStr "/etc/passwd")
  /\ VFS.resolvePath (fs k) (JStr "/etc/passwd")
     = Ok (Some (VFS.Own
                   (VFS.File (JStr "admin:x:0:0:root:/home/admin:/bin/sh"))))
  /\ snd (Kernel.syscall k (mkClock 2 2) "write_file"
            ["/etc/passwd"; "pwned"])
     = Throw (Error "Permission denied: /etc is read-only")
  /\ (let (k', r) := Kernel.syscall k (mkClock 2 2) "write_file"
                       ["//etc/passwd"; "pwned"] in
      r = Ok (VBool true)
      /\ option_map AuditLogger.status (hd_error (logs (logger k')))
         = Some ALLOWED
      /\ VFS.readFile (fs k') (JStr "/etc/passwd") = Ok (JStr "pwned")).
Proof. repeat split. Qed.

(** What a login with the pair of [account] leaves: [true] for the caller,
    the session of the account, and one more entry on the log, [ALLOWED]
    and of user ["system"]. *)
Definition logged_in (k : Kernel.t) (clk : Clock) (username password : string)
           (account : Session) : Prop :=
  let (k', ok) := login k clk username password in
  ok = true
  /\ currentUser k' = Some account
  /\ exists entry,
       logs (logger k') = entry :: logs (logger k)
       /\ AuditLogger.user entry = "system"
       /\ AuditLogger.syscall entry = "login"
       /\ AuditLogger.status entry = ALLOWED.

(** C9, as the code has it.  The root pair establishes a session of role
    root and the standard pair one of role user; each login returns [true]
    and logs an [ALLOWED] entry of user ["system"].  Every other pair
    returns [false], logs a [DENIED] entry of user ["system"] and leaves
    the session as it was, so none when there was none. *)
Theorem login_outcomes k clk username password :
  (username = "admin" /\ password = "admin123" ->
   logged_in k clk username password (mkSession "admin" root))
  /\ (username = "user" /\ password = "user123" ->
      logged_in k clk username password (mkSession "user" user))
  /\ (~ (username = "admin" /\ password = "admin123") ->
      ~ (username = "user" /\ password = "user123") ->
      let (k', ok) := login k clk username password in
      ok = false
      /\ (exists entry,
             logs (logger k') = entry :: logs (logger k)
             /\ AuditLogger.user entry = "system"
             /\ AuditLogger.syscall entry = "login"
             /\ AuditLogger.status entry = DENIED)
      /\ currentUser k' = currentUser k
      /\ (currentUser k = None -> currentUser k' = None)).
Proof.
  split; [|split].
  - intros [-> ->]. unfold logged_in, login. cbn [String.eqb andb].
    simpl. repeat split. eexists. repeat split.
  - intros [-> ->]. unfold logged_in, login. simpl.
    repeat split. eexists. repeat split.
  - intros Hadmin Huser. unfold login.
    destruct (String.eqb username "admin" && String.eqb password "admin123")
      eqn:E1.
    { apply andb_true_iff in E1 as [E1 E2].
      apply String.eqb_eq in E1, E2. tauto. }
    destruct (String.eqb username "user" && String.eqb password "user123")
      eqn:E2.
    { apply andb_true_iff in E2 as [E2 E3].
      apply String.eqb_eq in E2, E3. tauto. }
    split; [reflexivity|]. split; [|split; [reflexivity|auto]].
    eexists. rewrite logs_log. repeat split.
Qed.

Lemma login_outcomes_witness :
  logged_in (new []) (mkClock 1 1) "admin" "admin123"
    (mkSession "admin" root)
  /\ logged_in (new []) (mkClock 1 1) "user" "user123"
       (mkSession "user" user)
  /\ (let (k', ok) := login (new []) (mkClock 1 1) "admin" "letmein" in
      ok = false
      /\ (exists entry,
             logs (logger k') = entry :: logs (logger (new []))
             /\ AuditLogger.user entry = "system"
             /\ AuditLogger.syscall entry = "login"
             /\ AuditLogger.status entry = DENIED)
      /\ currentUser k' = currentUser (new [])
      /\ (currentUser (new []) = None -> currentUser k' = None)).
Proof.
  split; [|split].
  - apply (proj1 (login_outcomes (new []) (mkClock 1 1) "admin" "admin123")).
    split; reflexivity.
  - apply (proj1 (proj2 (login_outcomes (new []) (mkClock 1 1)
                           "user" "user123"))).
    split; reflexivity.
  - apply (proj2 (proj2 (login_outcomes (new []) (mkClock 1 1)
                           "admin" "letmein"))).
    + intros [_ H]. discriminate H.
    + intros [H _]. discriminate H.
Defined.

(** C9, as stated, fails: a login with a wrong pair while the root session
    is active returns [false] and the session is still there. *)
Lemma failed_login_keeps_session :
  let k := fst (login (new []) (mkClock 1 1) "admin" "admin123") in
  let (k', ok) := login k (mkClock 2 2) "admin" "letmein" in
  ok = false /\ currentUser k' = Some (mkSession "admin" root).
Proof. split; reflexivity. Qed.

End KernelClaims.

(** ** The process table *)

Section ProcessTable.

Import AuditLogger Kernel Lifetime.

Definition pids (k : Kernel.t) : list Z := map Process.pid (processes k).

(** [splice_first] takes out the first record of the wanted pid. *)
Lemma splice_first_found n ps :
  In n (map Process.pid ps) ->
  exists before p after,
    ps = before ++ p :: after
    /\ Process.pid p = n
    /\ ~ In n (map Process.pid before)
    /\ splice_first (Some n) ps = Some (before ++ after).
Proof.
  induction ps as [|q ps IH]; simpl; [contradiction|].
  destruct (Z.eqb (Process.pid q) n) eqn:E.
  - intros _. apply Z.eqb_eq in E. exists [], q, ps. simpl. auto.
  - apply Z.eqb_neq in E. intros [H|H]; [contradiction|].
    destruct (IH H) as (before & p & after & -> & Hp & Hnot & Hs).
    exists (q :: before), p, after. rewrite Hs. simpl.
    repeat split; auto. intros [H'|H']; auto.
Qed.

Lemma splice_first_removes target ps ps' :
  splice_first target ps = Some ps' ->
  exists before p after, ps = before ++ p :: after /\ ps' = before ++ after.
Proof.
  revert ps'. induction ps as [|q ps IH]; simpl; [discriminate|].
  intros ps'. destruct (num_eq (Process.pid q) target).
  - intros [= <-]. now exists [], q, ps.
  - destruct (splice_first target ps) as [l|]; [|discriminate].
    intros [= <-]. destruct (IH l eq_refl) as (before & p & after & -> & ->).
    now exists (q :: before), p, after.
Qed.

(** C10. [kill_process] finds the record by [parseInt] of its argument:
    under a root session, for every string whose leading integer, as
    [parseInt] reads it, is the pid of a record in the table (["100abc"]
    for pid 100), the call returns [true] and the first record of that pid
    is taken out of the table; it does not fail with [Process not found]. *)
Theorem kill_process_parses_prefix k clk u s rest n :
  currentUser k = Some u ->
  role u = root ->
  parseInt s = Some n ->
  In n (pids k) ->
  exists before p after,
    processes k = before ++ p :: after
    /\ Process.pid p = n
    /\ ~ In n (map Process.pid before)
    /\ Kernel.syscall k clk "kill_process" (s :: rest)
       = (log (Kernel.mk (fs k) (logger k) (currentUser k)
                 (before ++ after) (nextPid k))
              clk (username u) "kill_process" (PArgs (s :: rest))
              ALLOWED "Success",
          Ok (VBool true)).
Proof.
  intros Hu Hrole Hparse Hin.
  destruct (splice_first_found n (processes k) Hin)
    as (before & p & after & Hps & Hp & Hnot & Hs).
  exists before, p, after. repeat split; auto.
  unfold Kernel.syscall, attempt, checkAuth. rewrite Hu. cbn [bind].
  unfold handler, isAdmin. simpl String.eqb. cbn iota.
  rewrite Hu, Hrole. cbn [negb arg nth_error].
  unfold killProcess. cbn [to_string]. rewrite Hparse, Hs.
  cbn [bind fst snd]. rewrite ?Hu. reflexivity.
Qed.

Lemma kill_process_parses_prefix_witness :
  let k := fst (login (new []) (mkClock 1 1) "admin" "admin123") in
  exists before p after,
    processes k = before ++ p :: after
    /\ Process.pid p = 100%Z
    /\ ~ In 100%Z (map Process.pid before)
    /\ Kernel.syscall k (mkClock 2 2) "kill_process" ["100abc"]
       = (log (Kernel.mk (fs k) (logger k) (currentUser k)
                 (before ++ after) (nextPid k))
              (mkClock 2 2) "admin" "kill_process" (PArgs ["100abc"])
              ALLOWED "Success",
          Ok (VBool true)).
Proof.
  intros k.
  apply (kill_process_parses_prefix k (mkClock 2 2) (mkSession "admin" root)
           "100abc" [] 100%Z).
  - reflexivity.
  - reflexivity.
  - reflexivity.
  - left. reflexivity.
Defined.

(** On the seeded kernel the call with ["100abc"] empties the table. *)
Example kill_init_by_prefix :
  let k := fst (login (new []) (mkClock 1 1) "admin" "admin123") in
  let (k', r) := Kernel.syscall k (mkClock 2 2) "kill_process" ["100abc"] in
  r = Ok (VBool true) /\ processes k' = [].
Proof. split; reflexivity. Qed.

End ProcessTable.

(** ** [parseInt] on strings that begin with decimal digits *)

Section ParseInt.

Lemma option_map_mul_1 (o : option Z) : option_map (Z.mul 1) o = o.
Proof. destruct o as [z|]; [|reflexivity]. simpl. now destruct z. Qed.

(** When a string begins with decimal digits that write a number other
    than 0, [parseInt] returns that number whatever follows the digits.
    (After a leading ["0x"] the digits are read in base 16 instead.) *)
Lemma parseInt_decimal_prefix s n :
  parse_digits 10 s None = Some n -> n <> 0%Z -> parseInt s = Some n.
Proof.
  destruct s as [|c s]; [discriminate|].
  destruct c as [[] [] [] [] [] [] [] []];
    try (cbn; discriminate);
    intros H Hn; unfold parseInt;
    match goal with
    | |- context [trim_start (String ?c s)] =>
        change (trim_start (String c s)) with (String c s)
    end;
    cbv beta iota zeta;
    try (rewrite option_map_mul_1; exact H).
  destruct s as [|c s]; [rewrite option_map_mul_1; exact H|].
  destruct c as [[] [] [] [] [] [] [] []];
    try (rewrite option_map_mul_1; exact H);
    cbn in H; injection H as H; contradiction Hn; now rewrite <- H.
Qed.

Example parseInt_examples :
  parseInt "100abc" = Some 100%Z
  /\ parseInt " 100" = Some 100%Z
  /\ parseInt "0x64" = Some 100%Z
  /\ parseInt "abc" = None
  /\ parseInt (to_string JUndefined) = None.
Proof. repeat split. Qed.

End ParseInt.

(** ** Pids over the lifetime of a kernel *)

Section PidAllocation.

Import AuditLogger Kernel Lifetime.








End PidAllocation.

Section PidLifetime.

Import AuditLogger Kernel Lifetime.






End PidLifetime.

Section PidExamples.

Import AuditLogger Kernel Lifetime.

(** After [init] (pid 100) is killed, the next process gets 101, not 100. *)
Example pid_not_reused_after_kill :
  let c := mkClock 0 0 in
  let (k, outs) :=
    run (new [])
      [ (c, Login "admin" "admin123");
        (c, Syscall "kill_process" ["100"]);
        (c, Syscall "create_process" ["firefox"]);
        (c, Syscall "kill_process" ["101"]);
        (c, Syscall "create_process" ["vim"]) ] in
  issued outs = [101%Z; 102%Z] /\ pids k = [102%Z] /\ nextPid k = 103%Z.
Proof. repeat split. Qed.

End PidExamples.

(** * Further properties of the file system *)

Section FileTreeFrames.

Import VirtualFileSystem.

Lemma own_prop_set_prop_other children key n k :
k <> key -> own_prop (set_prop children key n) k = own_prop children k.
Proof.
intros Hk. induction children as [|[k' m] rest IH]; simpl.
- destruct (String.eqb key k) eqn:E; [|reflexivity].
  apply String.eqb_eq in E. congruence.
- destruct (String.eqb k' key) eqn:E; simpl.
  + apply String.eqb_eq in E. subst k'.
    destruct (String.eqb key k) eqn:E'; [|reflexivity].
    apply String.eqb_eq in E'. congruence.
  + now rewrite IH.
Qed.

Lemma get_prop_set_prop_other children key n k :
k <> key -> get_prop (set_prop children key n) k = get_prop children k.
Proof. intros Hk. unfold get_prop. now rewrite own_prop_set_prop_other. Qed.

(** What a caller can tell of the object a path resolves to. *)
Inductive seen : Type :=
| Missing
| SeenFile (content : jsval)
| SeenDir
| SeenInherited (key : string).

Definition look (o : option jsobject) : seen :=
match o with
| None => Missing
| Some (Own (File content)) => SeenFile content
| Some (Own (Dir _)) => SeenDir
| Some (Inherited key) => SeenInherited key
end.

(** The same, without the content of a file. *)
Definition kind (o : option jsobject) : seen :=
match look o with
| SeenFile _ => SeenFile JUndefined
| s => s
end.

Lemma readFile_look fs path :
readFile fs (JStr path)
= match look (walk (path_parts path) (Own (root fs))) with
  | Missing => Throw (Error "File not found")
  | SeenFile content => Ok content
  | _ => Throw (Error "Is a directory")
  end.
Proof.
unfold readFile. rewrite resolvePath_walk. cbn [bind].
now destruct (walk _ _) as [[[c|ch]|key]|].
Qed.

Lemma fileExists_look fs path :
fileExists fs (JStr path)
= Ok match look (walk (path_parts path) (Own (root fs))) with
     | Missing => false
     | _ => true
     end.
Proof.
unfold fileExists. rewrite resolvePath_walk. cbn [bind].
now destruct (walk _ _) as [[[c|ch]|key]|].
Qed.

(** An assignment at the node reached by [ps] shows along another path
    [qs] only where [qs] runs through that node. *)
Lemma observe_update_at {A} (obs : option jsobject -> A) :
(forall a b, obs (Some (Own (Dir a))) = obs (Some (Own (Dir b)))) ->
forall ps f cur n qs,
  walk ps (Own cur) = Some (Own n) ->
  (forall rest, qs = ps ++ rest ->
     obs (walk rest (Own (f n))) = obs (walk rest (Own n))) ->
  obs (walk qs (Own (update_at ps f cur))) = obs (walk qs (Own cur)).
Proof.
intros Hdir ps f. induction ps as [|p ps IH]; intros cur n qs Hwalk Hrest.
- injection Hwalk as ->. now apply Hrest.
- simpl in Hwalk. destruct cur as [c|ch]; [discriminate|].
  destruct (get_prop ch p) as [[m|key]|] eqn:G; try discriminate.
  + cbn [update_at]. rewrite (get_prop_own _ _ _ G).
    destruct qs as [|q qs]; [apply Hdir|]. cbn [walk].
    destruct (string_dec q p) as [->|Hq].
    * rewrite get_prop_set_prop, G. apply (IH m n qs Hwalk).
      intros rest ->. now apply Hrest.
    * now rewrite (get_prop_set_prop_other _ _ _ _ Hq).
  + now apply walk_inherited in Hwalk.
Qed.

Lemma look_dirs a b :
look (Some (Own (Dir a))) = look (Some (Own (Dir b))).
Proof. reflexivity. Qed.

Lemma kind_dirs a b :
kind (Some (Own (Dir a))) = kind (Some (Own (Dir b))).
Proof. reflexivity. Qed.

(** What a successful [writeFile] found and did. *)
Lemma writeFile_ok fs path content fs' b :
writeFile fs (JStr path) content = Ok (fs', b) ->
exists old,
  walk (path_parts path) (Own (root fs)) = Some (Own (File old))
  /\ b = true
  /\ root fs'
     = update_at (path_parts path)
         (fun node => match node with
                      | File _ => File content
                      | Dir _ => node
                      end) (root fs).
Proof.
unfold writeFile. rewrite resolvePath_walk. cbn [bind].
destruct (walk _ _) as [[[old|ch]|key]|] eqn:W; try discriminate.
intros [= <- <-]. exists old. repeat split.
Qed.

(** What a successful [createFile] found and did. *)
Lemma createFile_ok fs path content fs' b :
createFile fs (JStr path) content = Ok (fs', b) ->
exists parent children,
  path_parts path <> []
  /\ getParentPath (JStr path) = Ok (JStr parent)
  /\ path_parts parent = removelast (path_parts path)
  /\ walk (path_parts parent) (Own (root fs)) = Some (Own (Dir children))
  /\ get_prop children (last (path_parts path) "") = None
  /\ b = true
  /\ root fs'
     = update_at (path_parts parent)
         (fun node =>
            match node with
            | Dir children =>
                Dir (set_prop children (last (path_parts path) "")
                       (File match content with
                             | JUndefined => JStr ""
                             | c => c
                             end))
            | File _ => node
            end) (root fs).
Proof.
unfold createFile.
destruct (getParentPath (JStr path)) as [[| |parent]|e] eqn:P;
  cbn [bind]; try discriminate.
destruct (getParentPath_parts _ _ P) as [Hne Hpp].
rewrite (getName_parts _ Hne). cbn [bind to_string].
rewrite resolvePath_walk. cbn [bind].
destruct (walk _ _) as [[[c|ch]|key]|] eqn:W; try discriminate.
destruct (get_prop ch _) eqn:G; [discriminate|].
intros [= <- <-]. exists parent, ch. repeat split; auto.
Qed.

End FileTreeFrames.

Section FileSystemExtras.

Import VirtualFileSystem.

(** X1. A second [createFile] on a path that was just created fails with
    [File already exists], whatever the contents. *)
Theorem createFile_twice fs path content fs' b content' :
createFile fs (JStr path) content = Ok (fs', b) ->
createFile fs' (JStr path) content' = Throw (Error "File already exists").
Proof.
intros H.
destruct (createFile_ok _ _ _ _ _ H)
  as (parent & ch & Hne & Hp & Hpp & W & G & _ & Hroot).
unfold createFile. rewrite Hp, (getName_parts _ Hne). cbn [bind to_string].
rewrite resolvePath_walk, Hroot. cbn [bind].
rewrite (walk_update_at _ _ _ _ W). now rewrite get_prop_set_prop.
Qed.

Lemma createFile_twice_witness :
createFile (mk (Dir [("tmp", Dir [("a", File (JStr "1"))])]))
  (JStr "/tmp/b") (JStr "2")
= Ok (mk (Dir [("tmp", Dir [("a", File (JStr "1"));
                             ("b", File (JStr "2"))])]), true)
/\ createFile (mk (Dir [("tmp", Dir [("a", File (JStr "1"));
                                      ("b", File (JStr "2"))])]))
     (JStr "/tmp/b") (JStr "3")
   = Throw (Error "File already exists").
Proof.
split; [reflexivity|].
apply (createFile_twice (mk (Dir [("tmp", Dir [("a", File (JStr "1"))])]))
         "/tmp/b" (JStr "2") _ true (JStr "3")).
reflexivity.
Defined.

(** X2. On a path without a segment (["/"], the empty string, ["//"], ...)
    [createFile] and [deleteFile] do not fail with one of their own errors:
    [getParentPath] returns [null] and [resolvePath(null)] raises the
    [TypeError] of [null.split]. *)
Theorem createFile_deleteFile_no_segment fs path content :
path_parts path = [] ->
createFile fs (JStr path) content = Throw (cannot_read JNull "split")
/\ deleteFile fs (JStr path) = Throw (cannot_read JNull "split").
Proof.
intros H. unfold createFile, deleteFile, getParentPath, getName.
cbn [receiver bind]. rewrite H. split; reflexivity.
Qed.

Lemma createFile_deleteFile_no_segment_witness :
createFile seed (JStr "/") (JStr "x") = Throw (cannot_read JNull "split")
/\ deleteFile seed (JStr "/") = Throw (cannot_read JNull "split").
Proof.
apply (createFile_deleteFile_no_segment seed "/" (JStr "x")). reflexivity.
Defined.

(** X3. [writeFile] touches one file only: every path with other segments
    reads, and exists, after the write as it did before. *)
Theorem writeFile_other_paths fs path content fs' b other :
writeFile fs (JStr path) content = Ok (fs', b) ->
path_parts other <> path_parts path ->
readFile fs' (JStr other) = readFile fs (JStr other)
/\ fileExists fs' (JStr other) = fileExists fs (JStr other).
Proof.
intros H Hother. destruct (writeFile_ok _ _ _ _ _ H) as (old & W & _ & Hroot).
assert (L : look (walk (path_parts other) (Own (root fs')))
            = look (walk (path_parts other) (Own (root fs)))).
{ rewrite Hroot. apply (observe_update_at look look_dirs _ _ _ _ _ W).
  intros [|r rest] E; [rewrite app_nil_r in E; contradiction|reflexivity]. }
rewrite !readFile_look, !fileExists_look, L. split; reflexivity.
Qed.

Lemma writeFile_other_paths_witness :
readFile (mk (Dir [("a", File (JStr "new")); ("b", File (JStr "2"))]))
  (JStr "/b")
= readFile (mk (Dir [("a", File (JStr "1")); ("b", File (JStr "2"))]))
    (JStr "/b")
/\ fileExists (mk (Dir [("a", File (JStr "new")); ("b", File (JStr "2"))]))
     (JStr "/b")
   = fileExists (mk (Dir [("a", File (JStr "1")); ("b", File (JStr "2"))]))
       (JStr "/b").
Proof.
apply (writeFile_other_paths
         (mk (Dir [("a", File (JStr "1")); ("b", File (JStr "2"))]))
         "/a" (JStr "new") _ true "/b").
- reflexivity.
- discriminate.
Defined.

(** The observation of [look] along [rest] below a directory that got one
    new file. *)
Lemma look_below_new_file children name content rest :
get_prop children name = None ->
rest <> [name] ->
look (walk rest (Own (Dir (set_prop children name (File content)))))
= look (walk rest (Own (Dir children))).
Proof.
intros G Hrest. destruct rest as [|r rest]; [reflexivity|]. cbn [walk].
destruct (string_dec r name) as [->|Hr].
- rewrite get_prop_set_prop, G.
  destruct rest; [congruence|reflexivity].
- now rewrite (get_prop_set_prop_other _ _ _ _ Hr).
Qed.

(** X4. [createFile] adds one path only: every path with other segments
    reads, and exists, after the creation as it did before. *)
Theorem createFile_other_paths fs path content fs' b other :
createFile fs (JStr path) content = Ok (fs', b) ->
path_parts other <> path_parts path ->
readFile fs' (JStr other) = readFile fs (JStr other)
/\ fileExists fs' (JStr other) = fileExists fs (JStr other).
Proof.
intros H Hother.
destruct (createFile_ok _ _ _ _ _ H)
  as (parent & ch & Hne & _ & Hpp & W & G & _ & Hroot).
assert (L : look (walk (path_parts other) (Own (root fs')))
            = look (walk (path_parts other) (Own (root fs)))).
{ rewrite Hroot. apply (observe_update_at look look_dirs _ _ _ _ _ W).
  intros rest E. apply look_below_new_file; [exact G|].
  intros ->. apply Hother. rewrite E, Hpp.
  symmetry. now apply app_removelast_last. }
rewrite !readFile_look, !fileExists_look, L. split; reflexivity.
Qed.

Lemma createFile_other_paths_witness :
readFile (mk (Dir [("a", File (JStr "1")); ("b", File (JStr "2"))]))
  (JStr "/b/c")
= readFile (mk (Dir [("a", File (JStr "1"))])) (JStr "/b/c")
/\ fileExists (mk (Dir [("a", File (JStr "1")); ("b", File (JStr "2"))]))
     (JStr "/b/c")
   = fileExists (mk (Dir [("a", File (JStr "1"))])) (JStr "/b/c").
Proof.
apply (createFile_other_paths (mk (Dir [("a", File (JStr "1"))]))
         "/b" (JStr "2") _ true "/b/c").
- reflexivity.
- discriminate.
Defined.

End FileSystemExtras.

Section DeleteFile.

Import VirtualFileSystem.

Lemma get_prop_none_own children key :
get_prop children key = None -> own_prop children key = None.
Proof. unfold get_prop. now destruct (own_prop children key). Qed.

Lemma delete_prop_set_prop children key n :
own_prop children key = None ->
delete_prop (set_prop children key n) key = children.
Proof.
induction children as [|[k m] rest IH]; simpl.
- now rewrite String.eqb_refl.
- destruct (String.eqb k key) eqn:E; [discriminate|].
  intros H. simpl. now rewrite E, IH.
Qed.

Lemma set_prop_own children key n :
own_prop children key = Some n -> set_prop children key n = children.
Proof.
induction children as [|[k m] rest IH]; simpl; [discriminate|].
destruct (String.eqb k key); [now intros [= ->]|].
intros H. now rewrite IH.
Qed.

Lemma set_prop_set_prop children key a b :
set_prop (set_prop children key a) key b = set_prop children key b.
Proof.
induction children as [|[k m] rest IH]; simpl.
- now rewrite String.eqb_refl.
- destruct (String.eqb k key) eqn:E; simpl; rewrite E; [reflexivity|].
  now rewrite IH.
Qed.

(** Two assignments in a row at the same node are one. *)
Lemma update_at_twice ps f g : forall cur n,
walk ps (Own cur) = Some (Own n) ->
update_at ps g (update_at ps f cur) = update_at ps (fun x => g (f x)) cur.
Proof.
induction ps as [|p ps IH]; intros cur n W; [reflexivity|].
simpl in W. destruct cur as [c|ch]; [discriminate|].
destruct (get_prop ch p) as [[m|key]|] eqn:G; try discriminate.
- cbn [update_at]. rewrite (get_prop_own _ _ _ G).
  cbn [update_at]. rewrite own_prop_set_prop, set_prop_set_prop.
  now rewrite (IH m n W).
- now apply walk_inherited in W.
Qed.

(** An assignment of the value a node already has changes nothing. *)
Lemma update_at_fix ps f : forall cur n,
walk ps (Own cur) = Some (Own n) -> f n = n -> update_at ps f cur = cur.
Proof.
induction ps as [|p ps IH]; intros cur n W Hf.
- injection W as ->. exact Hf.
- simpl in W. destruct cur as [c|ch]; [discriminate|].
  destruct (get_prop ch p) as [[m|key]|] eqn:G; try discriminate.
  + cbn [update_at]. rewrite (get_prop_own _ _ _ G).
    rewrite (IH m n W Hf). now rewrite (set_prop_own _ _ _ (get_prop_own _ _ _ G)).
  + now apply walk_inherited in W.
Qed.

(** X5. [deleteFile] undoes [createFile]: deleting the path that was just
    created returns [true] and gives back the tree as it was before, key
    order included. *)
Theorem deleteFile_createFile fs path content fs' b :
createFile fs (JStr path) content = Ok (fs', b) ->
deleteFile fs' (JStr path) = Ok (fs, true).
Proof.
intros H.
destruct (createFile_ok _ _ _ _ _ H)
  as (parent & ch & Hne & Hp & Hpp & W & G & _ & Hroot).
unfold deleteFile. rewrite Hp, (getName_parts _ Hne). cbn [bind to_string].
rewrite resolvePath_walk, Hroot. cbn [bind].
rewrite (walk_update_at _ _ _ _ W), get_prop_set_prop.
unfold mutate. cbn [to_string]. rewrite Hroot.
rewrite (update_at_twice _ _ _ _ _ W).
rewrite (update_at_fix _ _ _ _ W).
- now destruct fs.
- now rewrite (delete_prop_set_prop _ _ _ (get_prop_none_own _ _ G)).
Qed.

Lemma deleteFile_createFile_witness :
deleteFile (mk (Dir [("tmp", Dir [("a", File (JStr "1"));
                                   ("b", File (JStr "2"))])]))
  (JStr "/tmp/b")
= Ok (mk (Dir [("tmp", Dir [("a", File (JStr "1"))])]), true).
Proof.
apply (deleteFile_createFile
         (mk (Dir [("tmp", Dir [("a", File (JStr "1"))])]))
         "/tmp/b" (JStr "2") _ true).
reflexivity.
Defined.

End DeleteFile.

Section PathsAndListings.

Import VirtualFileSystem.

Lemma inherited_key_segment name :
inherited_key name = true -> segment name.
Proof.
unfold inherited_key. intros H.
apply existsb_exists in H as (x & Hin & E).
apply String.eqb_eq in E. subst x.
repeat (destruct Hin as [<-|Hin]; [split; [reflexivity|discriminate]|]).
destruct Hin.
Qed.

Lemma getParentPath_some path :
path_parts path <> [] ->
exists parent, getParentPath (JStr path) = Ok (JStr parent).
Proof.
intros Hne. unfold getParentPath. cbn [receiver bind].
destruct (path_parts path); [congruence|]. cbn [List.length Nat.eqb].
eexists. reflexivity.
Qed.

(** X6. [getParentPath] and [getName] take a path apart by segments: for a
    path with at least one segment, the segments of the parent path
    followed by the name are the segments of the path, and the parent path
    is written without empty segments (["/"] or ["/a/b"]); for a path
    without a segment they return [null] and [undefined]. *)
Theorem path_taken_apart path :
(path_parts path <> [] ->
 exists parent name,
   getParentPath (JStr path) = Ok (JStr parent)
   /\ getName (JStr path) = Ok (JStr name)
   /\ path_parts parent ++ [name] = path_parts path
   /\ segment name
   /\ parent = ("/" ++ join "/" (path_parts parent))%string)
/\ (path_parts path = [] ->
    getParentPath (JStr path) = Ok JNull
    /\ getName (JStr path) = Ok JUndefined).
Proof.
split.
- intros Hne. destruct (getParentPath_some _ Hne) as [parent Hp].
  destruct (getParentPath_parts _ _ Hp) as [_ Hpp].
  exists parent, (last (path_parts path) "").
  split; [exact Hp|]. split; [now apply getName_parts|].
  split; [rewrite Hpp; symmetry; now apply app_removelast_last|].
  split.
  + pose proof (path_parts_segments path) as HF.
    rewrite (app_removelast_last "" Hne) in HF.
    apply Forall_app in HF as [_ HF]. now inversion HF.
  + rewrite Hpp. revert Hp. unfold getParentPath. cbn [receiver bind].
    destruct (path_parts path) as [|w ws]; [congruence|].
    cbn [List.length Nat.eqb].
    destruct (removelast (w :: ws)) as [|x l];
      cbn [List.length Nat.eqb]; now intros [= <-].
- intros H. unfold getParentPath, getName. cbn [receiver bind].
  now rewrite H.
Qed.

Lemma path_taken_apart_witness :
(exists parent name,
    getParentPath (JStr "//home//admin/notes.md/") = Ok (JStr parent)
    /\ getName (JStr "//home//admin/notes.md/") = Ok (JStr name)
    /\ path_parts parent ++ [name] = path_parts "//home//admin/notes.md/"
    /\ segment name
    /\ parent = ("/" ++ join "/" (path_parts parent))%string)
/\ getParentPath (JStr "//") = Ok JNull
/\ getName (JStr "//") = Ok JUndefined.
Proof.
split.
- apply (proj1 (path_taken_apart "//home//admin/notes.md/")). discriminate.
- apply (proj2 (path_taken_apart "//")). reflexivity.
Defined.

(** X7. A name inherited from [Object.prototype] is taken in every
    directory: under a path that resolves to a directory, such a name
    exists for [fileExists] and [createFile] refuses it with
    [File already exists], also when the directory holds no child of that
    name. *)
Theorem inherited_name_taken fs dir children name content :
resolvePath fs (JStr dir) = Ok (Some (Own (Dir children))) ->
inherited_key name = true ->
fileExists fs (JStr (dir ++ "/" ++ name)) = Ok true
/\ createFile fs (JStr (dir ++ "/" ++ name)) content
   = Throw (Error "File already exists").
Proof.
intros Hdir Hname. pose proof (inherited_key_segment _ Hname) as Hseg.
rewrite resolvePath_walk in Hdir. injection Hdir as Hdir.
change (dir ++ "/" ++ name)%string with (dir ++ String "/" name)%string.
assert (Hparts : path_parts (dir ++ String "/" name)
                 = path_parts dir ++ [name]).
{ now rewrite path_parts_app, (path_parts_segment _ Hseg). }
assert (Hget : exists o, get_prop children name = Some o).
{ unfold get_prop. destruct (own_prop children name); [eauto|].
  rewrite Hname. eauto. }
destruct Hget as [o Hget].
assert (Hne : path_parts (dir ++ String "/" name) <> []).
{ rewrite Hparts. now destruct (path_parts dir). }
split.
- rewrite fileExists_look, Hparts, walk_app, Hdir. cbn [walk].
  rewrite Hget. now destruct o as [[c|ch]|key].
- destruct (getParentPath_some _ Hne) as [parent Hp].
  destruct (getParentPath_parts _ _ Hp) as [_ Hpp].
  unfold createFile. rewrite Hp, (getName_parts _ Hne). cbn [bind to_string].
  rewrite resolvePath_walk, Hpp, Hparts, removelast_last, last_last, Hdir.
  cbn [bind]. now rewrite Hget.
Qed.

Lemma inherited_name_taken_witness :
fileExists seed (JStr ("/var/log" ++ "/" ++ "toString")) = Ok true
/\ createFile seed (JStr ("/var/log" ++ "/" ++ "toString")) (JStr "x")
   = Throw (Error "File already exists").
Proof.
apply (inherited_name_taken seed "/var/log" [] "toString" (JStr "x"));
  reflexivity.
Defined.

End PathsAndListings.

Section Listings.

Import VirtualFileSystem.

Lemma insert_index_length i e l :
List.length (insert_index i e l) = S (List.length l).
Proof.
induction l as [|[j e'] l IH]; simpl; [reflexivity|].
destruct (i <? j)%Z; simpl; [reflexivity|now rewrite IH].
Qed.

Lemma insert_index_In i e l x :
In x (insert_index i e l) <-> x = (i, e) \/ In x l.
Proof.
induction l as [|[j e'] l IH]; simpl.
- intuition.
- destruct (i <? j)%Z; simpl; [intuition|]. rewrite IH. intuition.
Qed.

(** [Object.keys] lists every own key, each once. *)
Lemma object_entries_length children :
List.length (object_entries children) = List.length children.
Proof.
unfold object_entries. rewrite length_app, length_map.
induction children as [|[k n] rest IH]; simpl; [reflexivity|].
destruct (array_index k); simpl.
- rewrite insert_index_length. simpl. now rewrite IH.
- rewrite <- IH. lia.
Qed.

Lemma object_entries_In children e :
In e children -> In e (object_entries children).
Proof.
unfold object_entries. intros H. apply in_app_iff.
destruct (array_index (fst e)) as [i|] eqn:A.
- left. apply in_map_iff. exists (i, e). split; [reflexivity|].
  induction children as [|[k n] rest IH]; [destruct H|].
  simpl. destruct H as [<-|H].
  + cbn [fst] in A. rewrite A. apply insert_index_In. now left.
  + destruct (array_index k); [apply insert_index_In; right|]; now apply IH.
- right. apply filter_In. split; [exact H|now rewrite A].
Qed.

(** Without a key that is an array index, [Object.keys] is the insertion
    order. *)
Lemma object_entries_plain children :
Forall (fun e => array_index (fst e) = None) children ->
object_entries children = children.
Proof.
intros H.
assert (E : index_entries children = []
            /\ filter (fun e : string * node =>
                         match array_index (fst e) with
                         | Some _ => false
                         | None => true
                         end) children = children).
{ induction H as [|[k n] rest Hk _ [IH1 IH2]]; [split; reflexivity|].
  cbn [fst] in Hk. simpl. rewrite Hk, IH1, IH2. split; reflexivity. }
unfold object_entries. destruct E as [-> ->]. reflexivity.
Qed.

(** The entry [listDir] shows for a child whose content, if it is a file,
    is a string. *)
Definition entry_of (e : string * node) : DirEntry :=
match snd e with
| File content =>
    mkDirEntry (fst e) "file"
      match content with JStr s => String.length s | _ => 0 end
| Dir children => mkDirEntry (fst e) "dir" (List.length children)
end.

Definition listable (e : string * node) : Prop :=
match snd e with
| File (JStr _) => True
| File _ => False
| Dir _ => True
end.

Lemma map_result_describe l :
Forall listable l -> map_result describe l = Ok (map entry_of l).
Proof.
induction 1 as [|[k n] l Hn _ IH]; [reflexivity|].
cbn [map_result map]. rewrite IH.
destruct n as [[| |s]|ch]; try contradiction; unfold describe, entry_of;
  cbn [fst snd bind]; [reflexivity|].
now rewrite object_entries_length.
Qed.

(** X8. [listDir] of a directory whose names are not array indices and
    whose files hold strings returns one entry per child, in the order in
    which the children were inserted; a file shows the length of its
    content and a directory the number of its children. *)
Theorem listDir_insertion_order fs path children :
resolvePath fs (JStr path) = Ok (Some (Own (Dir children))) ->
Forall (fun e => array_index (fst e) = None) children ->
Forall listable children ->
listDir fs (JStr path) = Ok (map entry_of children).
Proof.
intros Hdir Hplain Hlist. unfold listDir. rewrite Hdir. cbn [bind].
rewrite (object_entries_plain _ Hplain). now apply map_result_describe.
Qed.

Lemma listDir_insertion_order_witness :
listDir seed (JStr "/home/admin")
= Ok (map entry_of
        [ ("secret.txt", File (JStr "CONFIDENTIAL: Project Blue Book"));
          ("notes.md", File (JStr
             ("# To Do" ++ String "010" "1. Secure the kernel"
              ++ String "010" "2. Audit logs"))) ]).
Proof.
apply (listDir_insertion_order seed "/home/admin").
- reflexivity.
- repeat constructor.
- repeat constructor.
Defined.

(** Names that are array indices come first, in numeric order. *)
Example listDir_numeric_names_first :
listDir (mk (Dir [("b", Dir []); ("10", Dir []); ("9", Dir [])])) (JStr "/")
= Ok [ mkDirEntry "9" "dir" 0; mkDirEntry "10" "dir" 0;
       mkDirEntry "b" "dir" 0 ].
Proof. reflexivity. Qed.

Lemma own_prop_In children key n :
own_prop children key = Some n -> In (key, n) children.
Proof.
induction children as [|[k m] rest IH]; simpl; [discriminate|].
destruct (String.eqb k key) eqn:E.
- apply String.eqb_eq in E. intros [= ->]. left. now subst.
- intros H. right. now apply IH.
Qed.

Lemma describe_undefined_throws l k :
In (k, File JUndefined) l ->
exists v, (v = JUndefined \/ v = JNull)
          /\ map_result describe l = Throw (cannot_read v "length").
Proof.
induction l as [|x l IH]; [intros []|].
intros [->|Hin]; cbn [map_result].
- exists JUndefined. split; [now left|reflexivity].
- destruct x as [k' [[| |s]|ch]]; unfold describe at 1; cbn [snd fst bind].
  + exists JUndefined. split; [now left|reflexivity].
  + exists JNull. split; [now right|reflexivity].
  + destruct (IH Hin) as (v & Hv & He). rewrite He. now exists v.
  + destruct (IH Hin) as (v & Hv & He). rewrite He. now exists v.
Qed.

(** X9. A file written without a content (the second argument of
    [writeFile] left [undefined]) reads back as [undefined], and [listDir]
    of its directory then fails: the size of the entry is taken with
    [content.length], which raises a [TypeError]. *)
Theorem writeFile_undefined_breaks_listDir fs path fs' b parent :
writeFile fs (JStr path) JUndefined = Ok (fs', b) ->
getParentPath (JStr path) = Ok (JStr parent) ->
readFile fs' (JStr path) = Ok JUndefined
/\ exists v, (v = JUndefined \/ v = JNull)
             /\ listDir fs' (JStr parent) = Throw (cannot_read v "length").
Proof.
intros H Hp.
destruct (writeFile_ok _ _ _ _ _ H) as (old & W & _ & Hroot).
destruct (getParentPath_parts _ _ Hp) as [Hne Hpp].
assert (W' : walk (path_parts path) (Own (root fs'))
             = Some (Own (File JUndefined))).
{ rewrite Hroot. now rewrite (walk_update_at _ _ _ _ W). }
split.
- rewrite readFile_look, W'. reflexivity.
- unfold listDir. rewrite resolvePath_walk, Hpp. cbn [bind].
  rewrite (app_removelast_last "" Hne), walk_app in W'.
  destruct (walk (removelast (path_parts path)) (Own (root fs')))
    as [[[c|ch]|key]|]; try discriminate.
  cbn [walk] in W'.
  destruct (get_prop ch (last (path_parts path) "")) as [o|] eqn:G;
    [|discriminate].
  injection W' as ->. apply get_prop_own, own_prop_In in G.
  apply describe_undefined_throws with (k := last (path_parts path) "").
  now apply object_entries_In.
Qed.

Lemma writeFile_undefined_breaks_listDir_witness :
readFile (mk (Dir [("a", File JUndefined)])) (JStr "/a") = Ok JUndefined
/\ exists v, (v = JUndefined \/ v = JNull)
             /\ listDir (mk (Dir [("a", File JUndefined)])) (JStr "/")
                = Throw (cannot_read v "length").
Proof.
apply (writeFile_undefined_breaks_listDir
         (mk (Dir [("a", File (JStr "1"))])) "/a" _ true "/");
  reflexivity.
Defined.

End Listings.

(** * Further properties of the kernel *)

Section KernelExtras.

Import AuditLogger Kernel.

(** The names the [switch] of [syscall] knows. *)
Definition registry : list string :=
[ "get_info"; "create_process"; "kill_process"; "open_file"; "read_file";
  "write_file"; "create_file"; "list_dir" ].

Lemma eqb_false_of_neq (a b : string) : a <> b -> String.eqb a b = false.
Proof. intros H. now apply String.eqb_neq. Qed.

(** X10. Under a session, a name outside the registry fails with
    [Unknown system call]; the call is logged as [ERROR] under the user of
    the session and nothing else of the kernel changes. *)
Theorem unknown_syscall k clk u name args :
currentUser k = Some u ->
~ In name registry ->
Kernel.syscall k clk name args
= (log k clk (username u) name (PArgs args) ERROR "Unknown system call",
   Throw (Error "Unknown system call")).
Proof.
intros Hu Hname. unfold Kernel.syscall, attempt, checkAuth.
rewrite Hu. cbn [bind]. unfold handler.
repeat match goal with
       | |- context [String.eqb name ?s] =>
           rewrite (eqb_false_of_neq name s)
             by (intros ->; apply Hname; simpl; tauto)
       end.
reflexivity.
Qed.

Lemma unknown_syscall_witness :
Kernel.syscall (fst (login (new []) (mkClock 1 1) "user" "user123"))
  (mkClock 2 2) "delete_file" ["/etc/passwd"]
= (log (fst (login (new []) (mkClock 1 1) "user" "user123")) (mkClock 2 2)
       "user" "delete_file" (PArgs ["/etc/passwd"]) ERROR
       "Unknown system call",
   Throw (Error "Unknown system call")).
Proof.
apply (unknown_syscall (fst (login (new []) (mkClock 1 1) "user" "user123"))
         (mkClock 2 2) (mkSession "user" user) "delete_file"
         ["/etc/passwd"]).
- reflexivity.
- simpl. intros H.
  repeat (destruct H as [H|H]; [discriminate H|]). exact H.
Defined.

(** X11. No system call changes the session: after every call, returning
    or throwing, [currentUser] is what it was. *)
Theorem syscall_keeps_session k clk name args :
currentUser (fst (Kernel.syscall k clk name args)) = currentUser k.
Proof.
unfold Kernel.syscall.
destruct (attempt k name args) as [[[k' u] v]|e] eqn:A; [|reflexivity].
now apply attempt_keeps in A as (_ & Hu & _).
Qed.

(** What a handler does for a caller that is not root: no process is
    created or killed. *)
Lemma handler_not_admin k u name args k' v :
isAdmin k = false ->
handler k u name args = Ok (k', v) ->
processes k' = processes k /\ nextPid k' = nextPid k.
Proof.
intros Hadm. unfold handler. rewrite Hadm. cbn [negb].
repeat match goal with
       | |- context [String.eqb name ?s] => destruct (String.eqb name s)
       end; try discriminate.
- now intros [= <- _].
- destruct (VFS.fileExists _ _) as [[|]|]; try discriminate.
  now intros [= <- _].
- destruct (receiver _ _); [|discriminate]. cbn [bind].
  destruct (includes _ _); [discriminate|].
  destruct (VFS.readFile _ _); [|discriminate]. now intros [= <- _].
- destruct (receiver _ _); [|discriminate]. cbn [bind].
  destruct (startsWith _ _); [discriminate|].
  destruct (VFS.writeFile _ _ _); [|discriminate]. now intros [= <- _].
- destruct (VFS.createFile _ _ _); [|discriminate]. now intros [= <- _].
- destruct (VFS.listDir _ _); [|discriminate]. now intros [= <- _].
Qed.

(** X12. Only root touches the process table: a call made with no session
    or under a session whose role is not root leaves [processes] and
    [nextPid] as they were, whatever its name and arguments. *)
Theorem process_table_root_only k clk name args :
isAdmin k = false ->
processes (fst (Kernel.syscall k clk name args)) = processes k
/\ nextPid (fst (Kernel.syscall k clk name args)) = nextPid k.
Proof.
intros Hadm. unfold Kernel.syscall.
destruct (attempt k name args) as [[[k' u] v]|e] eqn:A;
  [|split; reflexivity].
unfold attempt in A. destruct (checkAuth k) as [u0|]; [|discriminate].
cbn [bind] in A.
destruct (handler k u0 name args) as [[k1 v1]|] eqn:H; [|discriminate].
injection A as <- _ _. exact (handler_not_admin _ _ _ _ _ _ Hadm H).
Qed.

Lemma process_table_root_only_witness :
processes (fst (Kernel.syscall
                  (fst (login (new []) (mkClock 1 1) "user" "user123"))
                  (mkClock 2 2) "kill_process" ["100"]))
= processes (fst (login (new []) (mkClock 1 1) "user" "user123"))
/\ nextPid (fst (Kernel.syscall
                   (fst (login (new []) (mkClock 1 1) "user" "user123"))
                   (mkClock 2 2) "kill_process" ["100"]))
   = nextPid (fst (login (new []) (mkClock 1 1) "user" "user123")).
Proof.
apply (process_table_root_only
         (fst (login (new []) (mkClock 1 1) "user" "user123"))
         (mkClock 2 2) "kill_process" ["100"]).
reflexivity.
Defined.

(** X13. [get_info], [open_file], [read_file] and [list_dir] only read:
    whatever they return or throw, the file tree, the process table,
    [nextPid] and the session are as before; the log alone grows. *)
Theorem reading_calls_change_nothing k clk name args :
In name ["get_info"; "open_file"; "read_file"; "list_dir"] ->
let k' := fst (Kernel.syscall k clk name args) in
fs k' = fs k /\ processes k' = processes k /\ nextPid k' = nextPid k
/\ currentUser k' = currentUser k.
Proof.
intros Hname. cbv zeta. unfold Kernel.syscall.
destruct (attempt k name args) as [[[k' u] v]|e] eqn:A;
  [|repeat split].
assert (k' = k); [|subst; repeat split].
unfold attempt in A. destruct (checkAuth k) as [u0|]; [|discriminate].
cbn [bind] in A.
destruct (handler k u0 name args) as [[k1 v1]|] eqn:H; [|discriminate].
injection A as <- _ _. revert H. unfold handler.
simpl in Hname.
destruct Hname as [<-|[<-|[<-|[<-|[]]]]]; simpl String.eqb; cbn iota.
- now intros [= <- _].
- destruct (VFS.fileExists _ _) as [[|]|]; try discriminate.
  now intros [= <- _].
- destruct (receiver _ _); [|discriminate]. cbn [bind].
  destruct (includes _ _); [discriminate|].
  destruct (VFS.readFile _ _); [|discriminate]. now intros [= <- _].
- destruct (VFS.listDir _ _); [|discriminate]. now intros [= <- _].
Qed.

Lemma reading_calls_change_nothing_witness :
let k := fst (login (new []) (mkClock 1 1) "admin" "admin123") in
let k' := fst (Kernel.syscall k (mkClock 2 2) "list_dir" ["/etc"]) in
fs k' = fs k /\ processes k' = processes k /\ nextPid k' = nextPid k
/\ currentUser k' = currentUser k.
Proof.
intros k.
apply (reading_calls_change_nothing k (mkClock 2 2) "list_dir" ["/etc"]).
simpl. tauto.
Defined.

End KernelExtras.

Section ProcessExtras.

Import AuditLogger Kernel.

Lemma splice_first_none target ps :
(forall n, target = Some n -> ~ In n (map Process.pid ps)) ->
splice_first target ps = None.
Proof.
intros H. induction ps as [|p ps IH]; [reflexivity|]. simpl.
destruct target as [n|]; simpl.
- destruct (Z.eqb (Process.pid p) n) eqn:E.
  + apply Z.eqb_eq in E. exfalso. apply (H n eq_refl). now left.
  + rewrite IH; [reflexivity|]. intros m [= <-] Hin.
    apply (H n eq_refl). now right.
- rewrite IH; [reflexivity|]. intros m [=].
Qed.

(** X14. Under a root session, [kill_process] with an argument that
    [parseInt] reads as no number ([NaN]: a missing argument, a text
    without leading digits) or as a number that is no pid of the table
    fails with [Process not found]; the call is logged as [ERROR] and the
    table is unchanged. *)
Theorem kill_process_not_found k clk u args :
currentUser k = Some u ->
role u = root ->
(forall n, parseInt (to_string (arg args 0)) = Some n -> ~ In n (pids k)) ->
Kernel.syscall k clk "kill_process" args
= (log k clk (username u) "kill_process" (PArgs args) ERROR
       "Process not found",
   Throw (Error "Process not found")).
Proof.
intros Hu Hrole Hnot. unfold Kernel.syscall, attempt, checkAuth.
rewrite Hu. cbn [bind]. unfold handler, isAdmin. simpl String.eqb. cbn iota.
rewrite Hu, Hrole. cbn [negb]. unfold killProcess.
rewrite (splice_first_none _ _ Hnot). reflexivity.
Qed.

Lemma kill_process_not_found_witness :
Kernel.syscall (fst (login (new []) (mkClock 1 1) "admin" "admin123"))
  (mkClock 2 2) "kill_process" ["init"]
= (log (fst (login (new []) (mkClock 1 1) "admin" "admin123")) (mkClock 2 2)
       "admin" "kill_process" (PArgs ["init"]) ERROR "Process not found",
   Throw (Error "Process not found")).
Proof.
apply (kill_process_not_found
         (fst (login (new []) (mkClock 1 1) "admin" "admin123"))
         (mkClock 2 2) (mkSession "admin" root) ["init"]).
- reflexivity.
- reflexivity.
- intros n H. discriminate H.
Defined.

Lemma splice_first_last n ps p :
~ In n (map Process.pid ps) ->
Process.pid p = n ->
splice_first (Some n) (ps ++ [p]) = Some ps.
Proof.
intros Hnot Hp. induction ps as [|q ps IH]; simpl.
- rewrite Hp, Z.eqb_refl. reflexivity.
- destruct (Z.eqb (Process.pid q) n) eqn:E.
  + apply Z.eqb_eq in E. exfalso. apply Hnot. now left.
  + rewrite IH; [reflexivity|]. intros Hin. apply Hnot. now right.
Qed.

(** [create_process] under a root session. *)
Lemma create_process_root k clk u args :
currentUser k = Some u ->
role u = root ->
Kernel.syscall k clk "create_process" args
= (log (fst (createProcess k (arg args 0) (username u))) clk (username u)
       "create_process" (PArgs args) ALLOWED "Success",
   Ok (VNumber (nextPid k))).
Proof.
intros Hu Hrole. unfold Kernel.syscall, attempt, checkAuth.
rewrite Hu. cbn [bind]. unfold handler, isAdmin. simpl String.eqb. cbn iota.
rewrite Hu, Hrole. reflexivity.
Qed.

(** [kill_process] under a root session, when [findIndex] finds a record. *)
Lemma kill_process_root k clk u s rest ps :
currentUser k = Some u ->
role u = root ->
splice_first (parseInt s) (processes k) = Some ps ->
Kernel.syscall k clk "kill_process" (s :: rest)
= (log (Kernel.mk (fs k) (logger k) (currentUser k) ps (nextPid k))
       clk (username u) "kill_process" (PArgs (s :: rest)) ALLOWED "Success",
   Ok (VBool true)).
Proof.
intros Hu Hrole Hs. unfold Kernel.syscall, attempt, checkAuth.
rewrite Hu. cbn [bind]. unfold handler, isAdmin. simpl String.eqb. cbn iota.
rewrite Hu, Hrole. cbn [negb arg nth_error]. unfold killProcess.
cbn [to_string]. rewrite Hs. cbn [bind fst snd]. rewrite ?Hu. reflexivity.
Qed.

(** X15. Creating a process and killing it again gives back the process
    table: under a root session, when [nextPid] is not yet a pid of the
    table, [create_process] returns [nextPid], and [kill_process] with a
    text that [parseInt] reads as that pid returns [true] and leaves the
    table as it was before the creation, with [nextPid] one up. *)
Theorem create_then_kill k clk clk' u pname s :
currentUser k = Some u ->
role u = root ->
~ In (nextPid k) (pids k) ->
parseInt s = Some (nextPid k) ->
let (k1, r1) := Kernel.syscall k clk "create_process" [pname] in
let (k2, r2) := Kernel.syscall k1 clk' "kill_process" [s] in
r1 = Ok (VNumber (nextPid k))
/\ r2 = Ok (VBool true)
/\ processes k2 = processes k
/\ nextPid k2 = (nextPid k + 1)%Z.
Proof.
intros Hu Hrole Hfresh Hparse.
rewrite (create_process_root _ clk _ [pname] Hu Hrole).
set (k1 := log _ _ _ _ _ _ _).
rewrite (kill_process_root k1 clk' u s [] (processes k)); [repeat split| | |].
- exact Hu.
- exact Hrole.
- rewrite Hparse. subst k1. cbn [log processes createProcess fst].
  now apply splice_first_last.
Qed.

Lemma create_then_kill_witness :
let k := fst (login (new []) (mkClock 1 1) "admin" "admin123") in
let (k1, r1) := Kernel.syscall k (mkClock 2 2) "create_process" ["vim"] in
let (k2, r2) := Kernel.syscall k1 (mkClock 3 3) "kill_process" ["101"] in
r1 = Ok (VNumber (nextPid k))
/\ r2 = Ok (VBool true)
/\ processes k2 = processes k
/\ nextPid k2 = (nextPid k + 1)%Z.
Proof.
intros k.
apply (create_then_kill k (mkClock 2 2) (mkClock 3 3)
         (mkSession "admin" root) "vim" "101").
- reflexivity.
- reflexivity.
- simpl. intros [H|[]]. discriminate H.
- reflexivity.
Defined.

End ProcessExtras.

Section LifetimeExtras.

Import AuditLogger Kernel Lifetime.

(** X16. After [logout] there is no session, whether or not there was one,
    and every system call fails with [Not logged in] until the next login;
    a second [logout] does nothing. *)
Theorem logout_ends_session k clk clk' name args :
currentUser (logout k clk) = None
/\ snd (Kernel.syscall (logout k clk) clk' name args)
   = Throw (Error "Not logged in")
/\ logout (logout k clk) clk' = logout k clk.
Proof.
assert (H : currentUser (logout k clk) = None).
{ unfold logout. destruct (currentUser k) eqn:E; [reflexivity|exact E]. }
split; [exact H|]. split.
- unfold Kernel.syscall, attempt, checkAuth. now rewrite H.
- unfold logout at 1. now rewrite H.
Qed.

(** The sessions [login] can establish. *)
Definition known_session (s : option Session) : Prop :=
s = None \/ s = Some (mkSession "admin" root)
\/ s = Some (mkSession "user" user).

(** The session is one of the two accounts and every process belongs to
    ["system"] or to ["admin"]. *)
Definition accounts_ok (k : Kernel.t) : Prop :=
known_session (currentUser k)
/\ Forall (fun p => Process.owner p = "system" \/ Process.owner p = "admin")
     (processes k).

(** What a handler that returns does to the records of the table. *)
Lemma handler_processes k u name args k' v :
handler k u name args = Ok (k', v) ->
processes k' = processes k
\/ (exists before p after,
      processes k = before ++ p :: after /\ processes k' = before ++ after)
\/ (isAdmin k = true
    /\ exists pname,
         processes k'
         = processes k
           ++ [Process.mk (nextPid k) pname (username u) "running"]).
Proof.
unfold handler.
repeat match goal with
       | |- context [String.eqb name ?s] => destruct (String.eqb name s)
       end.
- intros [= <- _]. now left.
- destruct (isAdmin k); [|discriminate]. cbn [negb].
  intros [= <- _]. right. right. split; [reflexivity|]. eexists. reflexivity.
- destruct (isAdmin k); [|discriminate]. cbn [negb]. unfold killProcess.
  destruct (splice_first _ _) as [ps|] eqn:S; [|discriminate].
  intros [= <- _]. right. left. now apply splice_first_removes in S.
- destruct (VFS.fileExists _ _) as [[|]|]; try discriminate.
  intros [= <- _]. now left.
- destruct (receiver _ _); [|discriminate]. cbn [bind].
  destruct (includes _ _); [discriminate|].
  destruct (VFS.readFile _ _); [|discriminate]. intros [= <- _]. now left.
- destruct (isAdmin k); cbn [negb bind].
  + destruct (VFS.writeFile _ _ _); [|discriminate]. intros [= <- _]. now left.
  + destruct (receiver _ _); [|discriminate]. cbn [bind].
    destruct (startsWith _ _); [discriminate|].
    destruct (VFS.writeFile _ _ _); [|discriminate]. intros [= <- _]. now left.
- destruct (VFS.createFile _ _ _); [|discriminate]. intros [= <- _]. now left.
- destruct (VFS.listDir _ _); [|discriminate]. intros [= <- _]. now left.
- discriminate.
Qed.

Lemma handler_accounts k u name args k' v :
currentUser k = Some u ->
accounts_ok k ->
handler k u name args = Ok (k', v) ->
accounts_ok k'.
Proof.
intros Hu [Hs Ho] H.
destruct (handler_keeps _ _ _ _ _ _ H) as [_ Hu'].
split; [now rewrite Hu'|].
destruct (handler_processes _ _ _ _ _ _ H)
  as [Hp | [(b & p & a & Hp & Hp') | (Hadm & pname & Hp)]].
- now rewrite Hp.
- rewrite Hp'. rewrite Hp in Ho. apply Forall_app in Ho as [H1 H2].
  apply Forall_app. split; [exact H1|now inversion H2].
- rewrite Hp. apply Forall_app. split; [exact Ho|].
  constructor; [|constructor]. cbn [Process.owner]. right.
  unfold isAdmin in Hadm. rewrite Hu in Hadm.
  destruct Hs as [Hs|[Hs|Hs]]; rewrite Hu in Hs; try discriminate;
    injection Hs as ->; [reflexivity|discriminate].
Qed.

Lemma step_accounts k clk op k' o :
step k clk op = (k', o) -> accounts_ok k -> accounts_ok k'.
Proof.
intros Hstep Hk. pose proof Hk as [Hs Ho].
destruct op as [username password| |name args|]; cbn [step] in Hstep.
- unfold login in Hstep.
  destruct (_ && _) in Hstep;
    [|destruct (_ && _) in Hstep]; injection Hstep as <- <-;
    (split; [unfold known_session; cbn; auto|exact Ho]).
- injection Hstep as <- <-. unfold logout.
  destruct (currentUser k) eqn:E;
    (split; [unfold known_session; cbn; auto|exact Ho]).
- unfold Kernel.syscall in Hstep.
  destruct (attempt k name args) as [[[k1 u] v]|e] eqn:A;
    injection Hstep as <- <-; [|now split].
  unfold attempt, checkAuth in A.
  destruct (currentUser k) as [u0|] eqn:Hu; [|discriminate].
  cbn [bind] in A.
  destruct (handler k u0 name args) as [[k2 v2]|] eqn:H; [|discriminate].
  injection A as <- _ _.
  exact (handler_accounts _ _ _ _ _ _ Hu Hk H).
- injection Hstep as <- <-. now split.
Qed.

(** X17. Over the whole lifetime of a kernel the session, when there is
    one, is one of the two accounts (["admin"] with role root or ["user"]
    with role user), and every process of the table is owned by
    ["system"] or by ["admin"]: no process is ever owned by ["user"]. *)
Theorem lifetime_accounts stored ops :
accounts_ok (fst (run (new stored) ops)).
Proof.
assert (H0 : accounts_ok (new stored)).
{ split; [now left|]. constructor; [now left|constructor]. }
revert H0. generalize (new stored) as k.
induction ops as [|[clk op] ops IH]; intros k Hk; [exact Hk|].
cbn [run]. destruct (step k clk op) as [k1 o] eqn:S.
specialize (IH k1 (step_accounts _ _ _ _ _ S Hk)).
now destruct (run k1 ops).
Qed.

End LifetimeExtras.

Section LogExtras.

Import AuditLogger Kernel Lifetime.

Lemma step_log k clk op :
op <> ClearLogs ->
exists added,
  logs (logger (fst (step k clk op))) = added ++ logs (logger k)
  /\ List.length added <= 1.
Proof.
intros Hop. destruct op as [username password| |name args|];
  [| | |congruence]; cbn [step].
- unfold login.
  destruct (_ && _); [|destruct (_ && _)]; cbn [fst];
    rewrite logs_log; eexists [_]; (split; [reflexivity|auto]).
- unfold logout. destruct (currentUser k); cbn [fst].
  + eexists [_]. split; [reflexivity|auto].
  + exists []. split; [reflexivity|auto].
- unfold Kernel.syscall.
  destruct (attempt k name args) as [[[k' u] v]|e] eqn:A; cbn [fst];
    rewrite logs_log.
  + apply attempt_keeps in A as (Hl & _). rewrite Hl.
    eexists [_]. split; [reflexivity|auto].
  + eexists [_]. split; [reflexivity|auto].
Qed.

(** X18. The log is only added to at its front: over any sequence of
    logins, logouts and system calls without a clearing, the log at the
    end is the log at the start with new entries before it, at most one
    per operation; no entry is dropped, edited or reordered. *)
Theorem log_append_only ops : forall k,
Forall (fun co => snd co <> ClearLogs) ops ->
exists added,
  logs (logger (fst (run k ops))) = added ++ logs (logger k)
  /\ List.length added <= List.length ops.
Proof.
induction ops as [|[clk op] ops IH]; intros k Hops.
- exists []. split; [reflexivity|auto].
- inversion Hops as [|? ? Hop Hrest]; subst. cbn [snd] in Hop.
  cbn [run]. destruct (step_log k clk op Hop) as (a1 & H1 & L1).
  destruct (step k clk op) as [k1 o]. cbn [fst] in H1.
  destruct (IH k1 Hrest) as (a2 & H2 & L2).
  destruct (run k1 ops) as [k2 os]. cbn [fst] in *.
  exists (a2 ++ a1). rewrite H2, H1, app_assoc. split; [reflexivity|].
  rewrite length_app. cbn [List.length]. lia.
Qed.

Lemma log_append_only_witness :
exists added,
  logs (logger (fst (run (new [])
                       [ (mkClock 1 1, Login "user" "user123");
                         (mkClock 2 2, Syscall "get_info" []);
                         (mkClock 3 3, Logout) ])))
  = added ++ logs (logger (new []))
  /\ List.length added <= 3.
Proof.
apply (log_append_only
         [ (mkClock 1 1, Login "user" "user123");
           (mkClock 2 2, Syscall "get_info" []);
           (mkClock 3 3, Logout) ] (new [])).
repeat constructor; discriminate.
Defined.

End LogExtras.

Section NodesStay.

Import AuditLogger Kernel Lifetime.

(** What [path] resolves to in [fs], without the content of a file. *)
Definition kind_at (fs : VFS.t) (path : string) : seen :=
match VFS.resolvePath fs (JStr path) with
| Ok o => kind o
| Throw _ => Missing
end.

Lemma kind_at_walk fs path :
kind_at fs path = kind (VFS.walk (VFS.path_parts path) (VFS.Own (VFS.root fs))).
Proof. unfold kind_at. now rewrite resolvePath_walk. Qed.

Lemma writeFile_kind fs path content fs' b other :
VFS.writeFile fs (JStr path) content = Ok (fs', b) ->
kind_at fs' other = kind_at fs other.
Proof.
intros H. destruct (writeFile_ok _ _ _ _ _ H) as (old & W & _ & Hroot).
rewrite !kind_at_walk, Hroot.
apply (observe_update_at kind kind_dirs _ _ _ _ _ W).
now intros [|r rest] _.
Qed.

Lemma createFile_kind fs path content fs' b other :
VFS.createFile fs (JStr path) content = Ok (fs', b) ->
kind_at fs other <> Missing ->
kind_at fs' other = kind_at fs other.
Proof.
intros H Hother.
destruct (createFile_ok _ _ _ _ _ H)
  as (parent & ch & Hne & _ & Hpp & W & G & _ & Hroot).
rewrite !kind_at_walk in *. unfold kind. rewrite Hroot.
rewrite (observe_update_at look look_dirs _ _ _ _ _ W); [reflexivity|].
intros rest E. apply look_below_new_file; [exact G|].
intros ->. apply Hother.
rewrite E, walk_app, W. cbn [VFS.walk]. now rewrite G.
Qed.

End NodesStay.

Section NodesStayCalls.

Import AuditLogger Kernel Lifetime.

(** What a handler that returns does to the file tree. *)
Lemma handler_fs k u name args k' v :
handler k u name args = Ok (k', v) ->
fs k' = fs k
\/ (exists path content b,
      VFS.writeFile (fs k) (JStr path) content = Ok (fs k', b))
\/ (exists path content b,
      VFS.createFile (fs k) (JStr path) content = Ok (fs k', b)).
Proof.
unfold handler.
repeat match goal with
       | |- context [String.eqb name ?s] => destruct (String.eqb name s)
       end.
- intros [= <- _]. now left.
- destruct (isAdmin k); [|discriminate]. intros [= <- _]. now left.
- destruct (isAdmin k); [|discriminate]. cbn [negb]. unfold killProcess.
  destruct (splice_first _ _); [|discriminate]. intros [= <- _]. now left.
- destruct (VFS.fileExists _ _) as [[|]|]; try discriminate.
  intros [= <- _]. now left.
- destruct (receiver _ _); [|discriminate]. cbn [bind].
  destruct (includes _ _); [discriminate|].
  destruct (VFS.readFile _ _); [|discriminate]. intros [= <- _]. now left.
- destruct (arg_cases args 0) as [E|[path E]]; rewrite E.
  + destruct (isAdmin k); cbn; discriminate.
  + assert (W : forall r,
               (r0 <- VFS.writeFile (fs k) (JStr path) (arg args 1) ;;
                Ok (with_fs k (fst r0), VBool (snd r0))) = Ok r ->
               exists b, VFS.writeFile (fs k) (JStr path) (arg args 1)
                         = Ok (fs (fst r), b)).
    { intros r. destruct (VFS.writeFile _ _ _) as [[f b]|]; [|discriminate].
      intros [= <-]. now exists b. }
    destruct (isAdmin k); cbn [negb bind receiver].
    * intros H. apply W in H as [b H]. right. left. eauto.
    * destruct (startsWith _ _); [discriminate|].
      intros H. apply W in H as [b H]. right. left. eauto.
- destruct (arg_cases args 0) as [E|[path E]]; rewrite E.
  + cbn. discriminate.
  + destruct (VFS.createFile _ _ _) as [[f b]|] eqn:C; [|discriminate].
    intros [= <- _]. right. right. exists path, (arg args 1), b. exact C.
- destruct (VFS.listDir _ _); [|discriminate]. intros [= <- _]. now left.
- discriminate.
Qed.

Lemma step_keeps_nodes k clk op path :
kind_at (fs k) path <> Missing ->
kind_at (fs (fst (step k clk op))) path = kind_at (fs k) path.
Proof.
intros Hp. destruct op as [username password| |name args|]; cbn [step].
- unfold login. now destruct (_ && _); [|destruct (_ && _)].
- unfold logout. now destruct (currentUser k).
- unfold Kernel.syscall.
  destruct (attempt k name args) as [[[k' u] v]|e] eqn:A; [|reflexivity].
  cbn [fst log fs]. unfold attempt in A.
  destruct (checkAuth k) as [u0|]; [|discriminate]. cbn [bind] in A.
  destruct (handler k u0 name args) as [[k1 v1]|] eqn:H; [|discriminate].
  injection A as <- _ _.
  destruct (handler_fs _ _ _ _ _ _ H)
    as [E | [(p & c & b & W) | (p & c & b & C)]].
  + now rewrite E.
  + exact (writeFile_kind _ _ _ _ _ _ W).
  + exact (createFile_kind _ _ _ _ _ _ C Hp).
- reflexivity.
Qed.

(** X19. Nothing the controller can do removes a node of the file tree:
    over any sequence of logins, logouts, system calls and log clearings,
    a path that resolves to a file still resolves to a file and a path
    that resolves to a directory still resolves to a directory. *)
Theorem nodes_stay ops : forall k path,
kind_at (fs k) path <> Missing ->
kind_at (fs (fst (run k ops))) path = kind_at (fs k) path.
Proof.
induction ops as [|[clk op] ops IH]; intros k path Hp; [reflexivity|].
cbn [run]. pose proof (step_keeps_nodes k clk op path Hp) as H1.
destruct (step k clk op) as [k1 o]. cbn [fst] in H1.
assert (Hp1 : kind_at (fs k1) path <> Missing) by now rewrite H1.
specialize (IH k1 path Hp1).
destruct (run k1 ops) as [k2 os]. cbn [fst] in *. congruence.
Qed.

Lemma nodes_stay_witness :
kind_at (fs (fst (run (new [])
                    [ (mkClock 1 1, Login "admin" "admin123");
                      (mkClock 2 2, Syscall "write_file"
                                      ["/etc/passwd"; "x"]);
                      (mkClock 3 3, Syscall "create_file"
                                      ["/etc/passwd/x"; "y"]) ])))
  "/etc/passwd"
= kind_at (fs (new [])) "/etc/passwd".
Proof.
apply (nodes_stay
         [ (mkClock 1 1, Login "admin" "admin123");
           (mkClock 2 2, Syscall "write_file" ["/etc/passwd"; "x"]);
           (mkClock 3 3, Syscall "create_file" ["/etc/passwd/x"; "y"]) ]
         (new []) "/etc/passwd").
discriminate.
Defined.

End NodesStayCalls.

Section CreateFileContent.

Import VirtualFileSystem.

(** X20. Whenever [createFile] succeeds, the new path reads back as the
    content that was given, or as the empty string when the content was
    left [undefined] (the default of the parameter). *)
Theorem createFile_reads_back fs path content fs' b :
createFile fs (JStr path) content = Ok (fs', b) ->
readFile fs' (JStr path)
= Ok match content with JUndefined => JStr "" | c => c end.
Proof.
intros H.
destruct (createFile_ok _ _ _ _ _ H)
  as (parent & ch & Hne & _ & Hpp & W & _ & _ & Hroot).
rewrite readFile_look, (app_removelast_last "" Hne), <- Hpp, walk_app, Hroot.
rewrite (walk_update_at _ _ _ _ W). cbn [walk].
now rewrite get_prop_set_prop.
Qed.

Lemma createFile_reads_back_witness :
readFile (mk (Dir [("a", File (JStr ""))])) (JStr "a") = Ok (JStr "").
Proof.
apply (createFile_reads_back (mk (Dir [])) "a" JUndefined _ true).
reflexivity.
Defined.

End CreateFileContent.
